(** * bb_autofeeder: the ESP32 pump controller [pump_control.obj.ino]

    A shallow embedding of the sketch: its global variables, the
    [Preferences] object it drives, and the functions
    [getSmoothedTouch], [blinkLED], [runPump], [setup] and [loop].
    Every call that touches the board (pins, PWM, serial port, sleeps,
    flash) appends an event to a chronological trace, so that statements
    about "what happened during an iteration" are statements about the
    events the iteration added. *)

From Stdlib Require Import ZArith List Lia Bool.
From stdpp Require Import gmap strings list fin_maps.

Local Open Scope Z_scope.

(** ** Machine integers

    The sketch uses [uint16_t], [uint32_t] and [int]; values are kept in
    [Z] and every narrowing or unsigned arithmetic result is reduced
    explicitly. *)

Definition to_u16 (z : Z) : Z := z mod 2 ^ 16.
Definition to_u32 (z : Z) : Z := z mod 2 ^ 32.

Definition UINT16_MAX : Z := 65535.
Definition UINT32_MAX : Z := 4294967295.

Arguments to_u16 : simpl never.
Arguments to_u32 : simpl never.

(** ** Events *)

Inductive pin_mode := INPUT | OUTPUT.

(** What [Serial.print] / [Serial.println] is given: a literal or a number. *)
Inductive msg :=
| Text (s : string)
| Num (z : Z).

Inductive event :=
| EvSerialBegin (baud : Z)
| EvPrint (m : msg)
| EvPrintln (m : msg)
| EvDelay (ms : Z)
| EvDelayMicros (us : Z)
| EvPinMode (pin : Z) (mode : pin_mode)
| EvDigitalWrite (pin : Z) (level : Z)
| EvDigitalRead (pin : Z) (level : Z)
| EvTouchRead (pin : Z) (value : Z)
| EvLedcAttach (pin f r : Z) (ok : bool)
| EvLedcWrite (pin duty : Z)
| EvPrefsBegin (name : string) (readOnly : bool) (ok : bool)
| EvPrefsEnd (wasOpen : bool)
| EvNvsWrite (key : string) (value : Z).

(** ** The state of the board and of the sketch *)

Record world := World {
  (* global variables of the sketch *)
  overflow_protect : Z;              (* int *)
  emptyCapacitiveValue : Z;          (* uint16_t *)
  fullCapacitiveValue : Z;           (* uint16_t *)
  totalPumpsSincePowerUp : Z;        (* uint32_t *)
  totalPumpsSinceCalibration : Z;    (* uint32_t *)
  (* the Preferences object [prefs] *)
  prefs_started : bool;
  prefs_readOnly : bool;
  (* flash: the entries of the namespace the sketch uses, and whether
     opening the namespace succeeds *)
  nvs : gmap string Z;
  nvs_ok : bool;
  (* whether ledcAttach succeeds *)
  ledc_ok : bool;
  (* how many sensor samples and button samples were taken so far *)
  touch_reads : nat;
  button_reads : nat;
  (* everything done to the board so far, oldest first *)
  trace : list event
}.

Definition set_overflow_protect (v : Z) (w : world) : world :=
  World v (emptyCapacitiveValue w) (fullCapacitiveValue w)
        (totalPumpsSincePowerUp w) (totalPumpsSinceCalibration w)
        (prefs_started w) (prefs_readOnly w) (nvs w) (nvs_ok w) (ledc_ok w)
        (touch_reads w) (button_reads w) (trace w).

Definition set_emptyCapacitiveValue (v : Z) (w : world) : world :=
  World (overflow_protect w) v (fullCapacitiveValue w)
        (totalPumpsSincePowerUp w) (totalPumpsSinceCalibration w)
        (prefs_started w) (prefs_readOnly w) (nvs w) (nvs_ok w) (ledc_ok w)
        (touch_reads w) (button_reads w) (trace w).

Definition set_fullCapacitiveValue (v : Z) (w : world) : world :=
  World (overflow_protect w) (emptyCapacitiveValue w) v
        (totalPumpsSincePowerUp w) (totalPumpsSinceCalibration w)
        (prefs_started w) (prefs_readOnly w) (nvs w) (nvs_ok w) (ledc_ok w)
        (touch_reads w) (button_reads w) (trace w).

Definition set_totalPumpsSincePowerUp (v : Z) (w : world) : world :=
  World (overflow_protect w) (emptyCapacitiveValue w) (fullCapacitiveValue w)
        v (totalPumpsSinceCalibration w)
        (prefs_started w) (prefs_readOnly w) (nvs w) (nvs_ok w) (ledc_ok w)
        (touch_reads w) (button_reads w) (trace w).

Definition set_totalPumpsSinceCalibration (v : Z) (w : world) : world :=
  World (overflow_protect w) (emptyCapacitiveValue w) (fullCapacitiveValue w)
        (totalPumpsSincePowerUp w) v
        (prefs_started w) (prefs_readOnly w) (nvs w) (nvs_ok w) (ledc_ok w)
        (touch_reads w) (button_reads w) (trace w).

Definition set_prefs (st ro : bool) (w : world) : world :=
  World (overflow_protect w) (emptyCapacitiveValue w) (fullCapacitiveValue w)
        (totalPumpsSincePowerUp w) (totalPumpsSinceCalibration w)
        st ro (nvs w) (nvs_ok w) (ledc_ok w)
        (touch_reads w) (button_reads w) (trace w).

Definition set_nvs (m : gmap string Z) (w : world) : world :=
  World (overflow_protect w) (emptyCapacitiveValue w) (fullCapacitiveValue w)
        (totalPumpsSincePowerUp w) (totalPumpsSinceCalibration w)
        (prefs_started w) (prefs_readOnly w) m (nvs_ok w) (ledc_ok w)
        (touch_reads w) (button_reads w) (trace w).

Definition set_nvs_ok (b : bool) (w : world) : world :=
  World (overflow_protect w) (emptyCapacitiveValue w) (fullCapacitiveValue w)
        (totalPumpsSincePowerUp w) (totalPumpsSinceCalibration w)
        (prefs_started w) (prefs_readOnly w) (nvs w) b (ledc_ok w)
        (touch_reads w) (button_reads w) (trace w).

Definition set_touch_reads (n : nat) (w : world) : world :=
  World (overflow_protect w) (emptyCapacitiveValue w) (fullCapacitiveValue w)
        (totalPumpsSincePowerUp w) (totalPumpsSinceCalibration w)
        (prefs_started w) (prefs_readOnly w) (nvs w) (nvs_ok w) (ledc_ok w)
        n (button_reads w) (trace w).

Definition set_button_reads (n : nat) (w : world) : world :=
  World (overflow_protect w) (emptyCapacitiveValue w) (fullCapacitiveValue w)
        (totalPumpsSincePowerUp w) (totalPumpsSinceCalibration w)
        (prefs_started w) (prefs_readOnly w) (nvs w) (nvs_ok w) (ledc_ok w)
        (touch_reads w) n (trace w).

Definition emit (e : event) (w : world) : world :=
  World (overflow_protect w) (emptyCapacitiveValue w) (fullCapacitiveValue w)
        (totalPumpsSincePowerUp w) (totalPumpsSinceCalibration w)
        (prefs_started w) (prefs_readOnly w) (nvs w) (nvs_ok w) (ledc_ok w)
        (touch_reads w) (button_reads w) (trace w ++ [e]).

(** ** Outcomes and the sketch monad

    A call either returns, or traps on an integer division by zero, or
    (only for the unbounded [while] of the calibration) is cut off by the
    step budget given to the model. *)

Inductive result (A : Type) :=
| Ok (a : A) (w : world)
| DivByZero (w : world)
| OutOfFuel.

Arguments Ok {A} a w.
Arguments DivByZero {A} w.
Arguments OutOfFuel {A}.

Definition M (A : Type) : Type := world -> result A.

Definition ret {A} (a : A) : M A := fun w => Ok a w.

Definition bind {A B} (m : M A) (k : A -> M B) : M B :=
  fun w => match m w with
           | Ok a w' => k a w'
           | DivByZero w' => DivByZero w'
           | OutOfFuel => OutOfFuel
           end.

Definition gets {A} (f : world -> A) : M A := fun w => Ok (f w) w.
Definition modify (f : world -> world) : M unit := fun w => Ok tt (f w).

Declare Scope sketch_scope.
Delimit Scope sketch_scope with sketch.

Notation "x <- m ;; k" := (bind m (fun x => k))
  (at level 100, m at next level, right associativity) : sketch_scope.
Notation "m ;; k" := (bind m (fun _ => k))
  (at level 100, right associativity) : sketch_scope.

Local Open Scope sketch_scope.

(** ** Constants of the sketch (lines 7-22) *)

Definition ns : string := "prefs".
Definition capKey : string := "capValue".
Definition pumpKey : string := "totalPump".

Definition pumpPin : Z := 23.
Definition EN_PIN : Z := 18.
Definition BUTTON_HIGH : Z := 27.
Definition BUTTON_IN : Z := 33.
Definition LED_BUILTIN : Z := 2.

Definition freq : Z := 50.
Definition resolution : Z := 8.
Definition dutyCycle : Z := 125.

Definition HIGH : Z := 1.
Definition LOW : Z := 0.

(** The globals as the sketch initialises them at power-up (lines 25-29),
    on a board whose flash holds [m]. *)
Definition power_up (m : gmap string Z) (flash_ok pwm_ok : bool) : world :=
  World 0 0 45 0 0 false false m flash_ok pwm_ok 0%nat 0%nat [].

Section Sketch.

(** ** The environment of the board

    [T0] is the pin number that the board's pin table gives to the first
    touch channel; the table is not part of the sketch, so the number is a
    parameter.  [touch k] is what the touch peripheral delivers at the
    k-th sample ever taken and [button k] the level of BUTTON_IN at the
    k-th [digitalRead]; both count from power-up. *)

Variable T0 : Z.
Variable touch : nat -> Z.
Variable button : nat -> bool.

Definition TOUCH_PIN : Z := T0.

(** ** Arduino primitives

    The calls of the Arduino core are not part of the sketch; each one is
    modelled by the event it leaves on the trace and, for the reads, by the
    value the environment supplies. *)

(** Modelled from the spec: [delay] of the Arduino core (section 5, the
    blocking sleep); the sleep is recorded, no time passes in the model. *)
Definition delay (ms : Z) : M unit := modify (emit (EvDelay ms)).

(** Modelled from the spec: [delayMicroseconds] of the Arduino core
    (section 4.1, the inter-sample delay). *)
Definition delayMicroseconds (us : Z) : M unit := modify (emit (EvDelayMicros us)).

(** Modelled from the spec: [pinMode] of the Arduino core (section 6,
    [configure(pin, mode)]). *)
Definition pinMode (pin : Z) (mode : pin_mode) : M unit :=
  modify (emit (EvPinMode pin mode)).

(** Modelled from the spec: [digitalWrite] of the Arduino core (section 6,
    [write(pin, level)]). *)
Definition digitalWrite (pin level : Z) : M unit :=
  modify (emit (EvDigitalWrite pin level)).

(** Modelled from the spec: [ledcWrite] of the Arduino core (section 6,
    PWM [write(pin, dutyValue)]). *)
Definition ledcWrite (pin duty : Z) : M unit := modify (emit (EvLedcWrite pin duty)).

(** Modelled from the spec: [Serial.begin], [Serial.print] and
    [Serial.println] of the Arduino core (section 6, the text log sink). *)
Definition Serial_begin (baud : Z) : M unit := modify (emit (EvSerialBegin baud)).
Definition Serial_print (m : msg) : M unit := modify (emit (EvPrint m)).
Definition Serial_println (m : msg) : M unit := modify (emit (EvPrintln m)).

(** Modelled from the spec: [ledcAttach] of the Arduino core (section 6,
    [attach(pin, frequencyHz, resolutionBits) -> success]). *)
Definition ledcAttach (pin f r : Z) : M bool :=
  fun w => Ok (ledc_ok w) (emit (EvLedcAttach pin f r (ledc_ok w)) w).

(** Modelled from the spec: [digitalRead] of the Arduino core (section 6,
    [readDigital(pin) -> level]); it returns 0 or 1.  The sketch reads
    BUTTON_IN only. *)
Definition digitalRead (pin : Z) : M Z :=
  fun w =>
    let v := Z.b2z (button (button_reads w)) in
    Ok v (emit (EvDigitalRead pin v) (set_button_reads (S (button_reads w)) w)).

(** Modelled from the spec: [touchRead] of the Arduino core (section 6,
    [readAnalogProxy(pin) -> magnitude]); on this board it returns a
    [uint16_t]. *)
Definition touchRead (pin : Z) : M Z :=
  fun w =>
    let v := to_u16 (touch (touch_reads w)) in
    Ok v (emit (EvTouchRead pin v) (set_touch_reads (S (touch_reads w)) w)).

(** ** The [Preferences] object

    The class comes from the Arduino core ([Preferences.h]), not from the
    sketch.  [begin] does nothing and reports failure on an object that is
    already started; otherwise it records the access mode and opens the
    namespace, which the flash may refuse.  Reads on an object that is not
    started give the caller's default, writes on one that is not started
    or is read-only write nothing and return 0.  The sketch opens one
    namespace only, [ns], always read-write, and uses [capKey] as a signed
    and [pumpKey] as an unsigned 32-bit entry; [nvs] holds the entries of
    that namespace, each within the range of its type. *)

(** Modelled from the spec: [Preferences::begin] (section 4.2, opening the
    namespaced store for a bounded scope; section 7, Storage-Unavailable:
    the store may fail to open). *)
Definition prefs_begin (name : string) (readOnly : bool) : M bool :=
  fun w =>
    if prefs_started w then
      Ok false (emit (EvPrefsBegin name readOnly false) w)
    else if nvs_ok w then
      Ok true (emit (EvPrefsBegin name readOnly true) (set_prefs true readOnly w))
    else
      Ok false (emit (EvPrefsBegin name readOnly false) (set_prefs false readOnly w)).

(** Modelled from the spec: [Preferences::end] (section 4.2, [close()]). *)
Definition prefs_end : M unit :=
  fun w =>
    if prefs_started w then
      Ok tt (emit (EvPrefsEnd true) (set_prefs false (prefs_readOnly w) w))
    else
      Ok tt (emit (EvPrefsEnd false) w).

(** Modelled from the spec: [Preferences::getInt] and [getUInt]
    (section 4.2, [getInt(key, default) -> value]; no load when the store
    is not open). *)
Definition prefs_get (key : string) (defaultValue : Z) : M Z :=
  fun w =>
    if prefs_started w then
      match nvs w !! key with
      | Some v => Ok v w
      | None => Ok defaultValue w
      end
    else Ok defaultValue w.

(** Modelled from the spec: [Preferences::putInt] and [putUInt]
    (section 4.2, [putInt(key, value)]; no persist when the store is not
    open).  The result is the number of bytes written. *)
Definition prefs_put (key : string) (value : Z) : M Z :=
  fun w =>
    if negb (prefs_started w) || prefs_readOnly w then Ok 0 w
    else Ok 4 (emit (EvNvsWrite key value) (set_nvs (<[key := value]> (nvs w)) w)).

Definition prefs_getInt := prefs_get.
Definition prefs_putInt := prefs_put.
Definition prefs_getUInt := prefs_get.
Definition prefs_putUInt := prefs_put.

(** ** [getSmoothedTouch] (lines 39-46) *)

(** The [for] loop of lines 41-44 with [n] iterations left and the
    [uint32_t] accumulator at [sum]. *)
Fixpoint sample_loop (n : nat) (touchPin delayMicros sum : Z) : M Z :=
  match n with
  | O => ret sum
  | S n' =>
      v <- touchRead touchPin ;;
      delayMicroseconds delayMicros ;;
      sample_loop n' touchPin delayMicros (to_u32 (sum + v))
  end.

Definition getSmoothedTouch (touchPin samples delayMicros : Z) : M Z :=
  sum <- sample_loop (Z.to_nat samples) touchPin delayMicros 0 ;;
  if samples =? 0 then (fun w => DivByZero w)
  else ret (to_u16 (sum / samples)).

(** ** [blinkLED] (lines 48-55) *)

(** [times] is the number of rounds of the [for] loop of line 49, that is
    [Z.to_nat] of the [int] argument.  [onTime] and [offTime] are handed
    to [delay] as they are, which is the time slept for the arguments
    that are not negative. *)
Fixpoint blinkLED (times : nat) (onTime offTime : Z) : M unit :=
  match times with
  | O => ret tt
  | S times' =>
      digitalWrite LED_BUILTIN HIGH ;;
      delay onTime ;;
      digitalWrite LED_BUILTIN LOW ;;
      delay offTime ;;
      blinkLED times' onTime offTime
  end.

(** ** [runPump] (lines 61-81) *)

(** [durationMs] is handed to [delay] as it is, which is the time slept
    for a duration that is not negative; the sketch calls [runPump()]
    with the default 1000 only. *)
Definition runPump (durationMs : Z) : M unit :=
  prefs_begin ns false ;;
  ledcWrite pumpPin dutyCycle ;;
  Serial_println (Text "Pump on") ;;
  delay durationMs ;;
  ledcWrite pumpPin 0 ;;
  Serial_println (Text "Pump off") ;;
  modify (fun w => set_totalPumpsSincePowerUp (to_u32 (totalPumpsSincePowerUp w + 1)) w) ;;
  modify (fun w => set_totalPumpsSinceCalibration (to_u32 (totalPumpsSinceCalibration w + 1)) w) ;;
  c <- gets totalPumpsSinceCalibration ;;
  prefs_putUInt pumpKey c ;;
  prefs_end.

(** ** [setup] (lines 83-172), in the order of the source *)

(** Lines 85-103: serial port, PWM channel, pins. *)
Definition setup_board : M unit :=
  Serial_begin 115200 ;;
  ok <- ledcAttach pumpPin freq resolution ;;
  (if ok then Serial_println (Text "LEDC successfully configured!")
   else Serial_println (Text "Error in LEDC configuration!")) ;;
  pinMode EN_PIN OUTPUT ;;
  pinMode BUTTON_HIGH OUTPUT ;;
  pinMode BUTTON_IN INPUT ;;
  pinMode LED_BUILTIN OUTPUT ;;
  digitalWrite EN_PIN HIGH ;;
  digitalWrite BUTTON_HIGH HIGH ;;
  digitalWrite BUTTON_IN LOW.

(** Lines 105-128: load the pump counter and the threshold; the value read
    for the threshold is returned, the calibration prints it later. *)
Definition setup_load : M Z :=
  prefs_begin ns false ;;
  delay 1000 ;;
  c <- prefs_getUInt pumpKey 0 ;;
  modify (set_totalPumpsSinceCalibration c) ;;
  prefs_end ;;
  Serial_print (Text "Total pumps since last calibration: ") ;;
  c <- gets totalPumpsSinceCalibration ;;
  Serial_println (Num c) ;;
  prefs_begin ns false ;;
  prefCalibrationValue <- prefs_getInt capKey 0 ;;
  (if prefCalibrationValue =? 0 then
     Serial_println (Text "No custom capacitive value set, setting default.") ;;
     full <- gets fullCapacitiveValue ;;
     prefs_putInt capKey full ;;
     Serial_print (Text "Stored default value: ") ;;
     v <- prefs_getInt capKey 0 ;;
     Serial_println (Num v)
   else
     modify (set_fullCapacitiveValue (to_u16 prefCalibrationValue)) ;;
     Serial_print (Text "Loaded calibrated capacitive value: ") ;;
     full <- gets fullCapacitiveValue ;;
     Serial_println (Num full)) ;;
  prefs_end ;;
  ret prefCalibrationValue.

(** Lines 144-149: [while (digitalRead(BUTTON_IN) == 0)].  The source loop
    has no bound; [fuel] bounds the number of button tests of the model. *)
Fixpoint calibration_pumping (fuel : nat) : M unit :=
  match fuel with
  | O => fun _ => OutOfFuel
  | S fuel' =>
      b <- digitalRead BUTTON_IN ;;
      if b =? 0 then
        runPump 1000 ;;
        Serial_print (Text "Capacitive Value: ") ;;
        v <- getSmoothedTouch TOUCH_PIN 64 50 ;;
        Serial_println (Num v) ;;
        delay 2000 ;;
        calibration_pumping fuel'
      else ret tt
  end.

(** Lines 133-141: entering the calibration. *)
Definition calibration_enter : M unit :=
  Serial_println (Text "Calibration...") ;;
  blinkLED 5 200 200 ;;
  digitalWrite LED_BUILTIN HIGH ;;
  e <- getSmoothedTouch TOUCH_PIN 64 50 ;;
  modify (set_emptyCapacitiveValue e) ;;
  Serial_print (Text "Empty capacitive value: ") ;;
  e' <- gets emptyCapacitiveValue ;;
  Serial_println (Num e') ;;
  delay 1000.

(** Lines 151-166: the new threshold and the counter reset. *)
Definition calibration_commit (prefCalibrationValue : Z) : M unit :=
  delay 2000 ;;
  r <- getSmoothedTouch TOUCH_PIN 64 50 ;;
  modify (set_fullCapacitiveValue (to_u16 (r + 1))) ;;
  Serial_print (Text "Updated capacitive from ") ;;
  Serial_print (Num prefCalibrationValue) ;;
  Serial_print (Text " to ") ;;
  full <- gets fullCapacitiveValue ;;
  Serial_println (Num full) ;;
  prefs_begin ns false ;;
  full' <- gets fullCapacitiveValue ;;
  prefs_putInt capKey full' ;;
  modify (set_totalPumpsSinceCalibration 0) ;;
  c <- gets totalPumpsSinceCalibration ;;
  prefs_putUInt pumpKey c ;;
  prefs_end ;;
  Serial_println (Text "Pump counter reset to 0").

(** Lines 133-166: the body of [if (digitalRead(BUTTON_IN) == 1)]. *)
Definition calibration (fuel : nat) (prefCalibrationValue : Z) : M unit :=
  calibration_enter ;;
  calibration_pumping fuel ;;
  calibration_commit prefCalibrationValue.

(** Lines 169-171: the completion blink and a last [prefs.end]. *)
Definition setup_end : M unit :=
  blinkLED 5 200 200 ;;
  prefs_end.

Definition setup (fuel : nat) : M unit :=
  setup_board ;;
  prefCalibrationValue <- setup_load ;;
  delay 5000 ;;
  b <- digitalRead BUTTON_IN ;;
  (if b =? 1 then calibration fuel prefCalibrationValue else ret tt) ;;
  setup_end.

(** ** [loop] (lines 174-202) *)

Definition stats_banner : string :=
  String (Ascii.ascii_of_nat 10) "========== STATS ==========".

(** Lines 178-201, with the reading of line 176 in [capacitiveValue].
    The increment of the [int] counter cannot overflow: it is only reached
    with the counter at most 5. *)
Definition loop_after_reading (capacitiveValue : Z) : M unit :=
  Serial_println (Text stats_banner) ;;
  Serial_print (Text "Measured Capacitive Value: ") ;;
  Serial_println (Num capacitiveValue) ;;
  Serial_print (Text "Full Capacitive Value: ") ;;
  full <- gets fullCapacitiveValue ;;
  Serial_println (Num full) ;;
  Serial_print (Text "Pumps since power up: ") ;;
  p <- gets totalPumpsSincePowerUp ;;
  Serial_println (Num p) ;;
  Serial_print (Text "Pumps since last calibration: ") ;;
  c <- gets totalPumpsSinceCalibration ;;
  Serial_println (Num c) ;;
  full' <- gets fullCapacitiveValue ;;
  (if capacitiveValue >? full' then
     o <- gets overflow_protect ;;
     if o >? 5 then
       Serial_println (Text "Overflow protect") ;;
       delay 30000 ;;
       modify (set_overflow_protect 0)
     else
       runPump 1000 ;;
       modify (fun w => set_overflow_protect (overflow_protect w + 1) w)
   else ret tt) ;;
  delay 2000.

Definition loop : M unit :=
  capacitiveValue <- getSmoothedTouch TOUCH_PIN 64 50 ;;
  loop_after_reading capacitiveValue.

(** [n] iterations of [loop], as the Arduino runtime calls it. *)
Fixpoint loops (n : nat) : M unit :=
  match n with
  | O => ret tt
  | S n' => loop ;; loops n'
  end.

End Sketch.


(** ** Vocabulary of the statements *)

(** The k-th raw sample as [touchRead] hands it to the sketch. *)
Definition raw (touch : nat -> Z) (k : nat) : Z := to_u16 (touch k).

(** The [n] raw samples taken from sample number [start] on. *)
Definition raw_samples (touch : nat -> Z) (start n : nat) : list Z :=
  List.map (raw touch) (seq start n).

Definition sum_list (l : list Z) : Z := fold_right Z.add 0 l.

(** The filter as the specification words it: the arithmetic mean of the
    samples, truncated to an integer. *)
Definition truncated_mean (l : list Z) : Z :=
  Z.quot (sum_list l) (Z.of_nat (length l)).

(** The accumulator of [sample_loop] after the samples [l], from [acc]. *)
Definition accumulate (acc : Z) (l : list Z) : Z :=
  fold_left (fun a v => to_u32 (a + v)) l acc.

(** What one sampling run adds to the trace. *)
Definition sample_events (touch : nat -> Z) (pin delayMicros : Z) (start n : nat)
  : list event :=
  flat_map (fun k => [EvTouchRead pin (raw touch k); EvDelayMicros delayMicros])
           (seq start n).

(** The world after [n] more samples: only the sample count and the trace
    have moved. *)
Definition after_sampling (touch : nat -> Z) (pin delayMicros : Z) (n : nat)
    (w : world) : world :=
  World (overflow_protect w) (emptyCapacitiveValue w) (fullCapacitiveValue w)
        (totalPumpsSincePowerUp w) (totalPumpsSinceCalibration w)
        (prefs_started w) (prefs_readOnly w) (nvs w) (nvs_ok w) (ledc_ok w)
        (touch_reads w + n)%nat (button_reads w)
        (trace w ++ sample_events touch pin delayMicros (touch_reads w) n).

(** The reading that a call of [getSmoothedTouch] with the defaults gives
    when it starts at sample number [k]. *)
Definition smoothed_at (touch : nat -> Z) (k : nat) : Z :=
  truncated_mean (raw_samples touch k 64).

(** The world with the events [evs] appended to its trace. *)
Definition add_events (evs : list event) (w : world) : world :=
  World (overflow_protect w) (emptyCapacitiveValue w) (fullCapacitiveValue w)
        (totalPumpsSincePowerUp w) (totalPumpsSinceCalibration w)
        (prefs_started w) (prefs_readOnly w) (nvs w) (nvs_ok w) (ledc_ok w)
        (touch_reads w) (button_reads w) (trace w ++ evs).

(** The statistics block that [loop] prints (lines 179-187). *)
Definition stats_events (capacitiveValue : Z) (w : world) : list event :=
  [ EvPrintln (Text stats_banner);
    EvPrint (Text "Measured Capacitive Value: ");
    EvPrintln (Num capacitiveValue);
    EvPrint (Text "Full Capacitive Value: ");
    EvPrintln (Num (fullCapacitiveValue w));
    EvPrint (Text "Pumps since power up: ");
    EvPrintln (Num (totalPumpsSincePowerUp w));
    EvPrint (Text "Pumps since last calibration: ");
    EvPrintln (Num (totalPumpsSinceCalibration w)) ].

(** What [runPump] does to the board when the namespace opens for it. *)
Definition pump_events (durationMs count : Z) : list event :=
  [ EvPrefsBegin ns false true;
    EvLedcWrite pumpPin dutyCycle;
    EvPrintln (Text "Pump on");
    EvDelay durationMs;
    EvLedcWrite pumpPin 0;
    EvPrintln (Text "Pump off");
    EvNvsWrite pumpKey count;
    EvPrefsEnd true ].

(** The same when the flash refuses to open the namespace. *)
Definition pump_events_no_store (durationMs : Z) : list event :=
  [ EvPrefsBegin ns false false;
    EvLedcWrite pumpPin dutyCycle;
    EvPrintln (Text "Pump on");
    EvDelay durationMs;
    EvLedcWrite pumpPin 0;
    EvPrintln (Text "Pump off");
    EvPrefsEnd false ].

(** The world a call leaves behind. *)
Definition after {A} (m : M A) (w : world) : world :=
  match m w with
  | Ok _ w' => w'
  | DivByZero w' => w'
  | OutOfFuel => w
  end.

(** The world after one test of the button in the calibration. *)
Definition button_sampled (button : nat -> bool) (w : world) : world :=
  emit (EvDigitalRead BUTTON_IN (Z.b2z (button (button_reads w))))
       (set_button_reads (S (button_reads w)) w).

(** The world after one round of the calibration loop whose button test
    read LOW: pump, print a fresh reading, wait. *)
Definition pump_round (T0 : Z) (touch : nat -> Z) (button : nat -> bool)
    (w : world) : world :=
  let w2 := emit (EvPrint (Text "Capacitive Value: "))
                 (after (runPump 1000) (button_sampled button w)) in
  emit (EvDelay 2000)
    (emit (EvPrintln (Num (smoothed_at touch (touch_reads w2))))
       (after_sampling touch T0 50 64 w2)).

(** The last events of a calibration that commits the threshold [thr]
    on a board whose flash works. *)
Definition commit_events (thr : Z) : list event :=
  [ EvPrefsBegin ns false true;
    EvNvsWrite capKey thr;
    EvNvsWrite pumpKey 0;
    EvPrefsEnd true;
    EvPrintln (Text "Pump counter reset to 0") ].

(** What [setup] prints after attaching the PWM channel. *)
Definition attach_message (pwm_ok : bool) : msg :=
  if pwm_ok then Text "LEDC successfully configured!"
  else Text "Error in LEDC configuration!".

(** What [blinkLED] does to the board. *)
Fixpoint blink_events (times : nat) (onTime offTime : Z) : list event :=
  match times with
  | O => []
  | S times' =>
      [ EvDigitalWrite LED_BUILTIN HIGH; EvDelay onTime;
        EvDigitalWrite LED_BUILTIN LOW; EvDelay offTime ]
      ++ blink_events times' onTime offTime
  end.

(** The end of [setup] (lines 170-171) on a closed namespace. *)
Definition finish_events : list event :=
  blink_events 5 200 200 ++ [EvPrefsEnd false].

(** Whether a call returned. *)
Definition returns {A} (r : result A) : bool :=
  match r with
  | Ok _ _ => true
  | _ => false
  end.

(** The world after [n] iterations of [loop]. *)
Definition iterations (T0 : Z) (touch : nat -> Z) (n : nat) (w : world) : world :=
  Nat.iter n (after (loop T0 touch)) w.

Definition count_ev (p : event -> bool) (tr : list event) : nat :=
  length (List.filter p tr).

(** The pump is switched on: [ledcWrite(pumpPin, dutyCycle)]. *)
Definition is_pump_on (e : event) : bool :=
  match e with
  | EvLedcWrite pin duty => (pin =? pumpPin) && (duty =? dutyCycle)
  | _ => false
  end.

(** The 30 s pause of the overflow protection. *)
Definition is_cooldown (e : event) : bool :=
  match e with
  | EvDelay ms => ms =? 30000
  | _ => false
  end.

(** A call of [prefs.begin], whatever its outcome. *)
Definition is_prefs_begin (e : event) : bool :=
  match e with
  | EvPrefsBegin _ _ _ => true
  | _ => false
  end.

Definition actuations (tr : list event) : nat := count_ev is_pump_on tr.
Definition cooldowns (tr : list event) : nat := count_ev is_cooldown tr.
Definition begin_calls (tr : list event) : nat := count_ev is_prefs_begin tr.

(** Overflow counter, pump actuations so far, cool-downs so far. *)
Definition snapshot (w : world) : Z * nat * nat :=
  (overflow_protect w, actuations (trace w), cooldowns (trace w)).

(** Whether the namespace is open after the events [evs], when it was
    [open] before them. *)
Fixpoint store_open_after (open : bool) (evs : list event) : bool :=
  match evs with
  | [] => open
  | EvPrefsBegin _ _ true :: rest => store_open_after true rest
  | EvPrefsEnd _ :: rest => store_open_after false rest
  | _ :: rest => store_open_after open rest
  end.

(** The sleeps among [evs] that elapse while the namespace is open. *)
Fixpoint sleeps_while_open (open : bool) (evs : list event) : list event :=
  match evs with
  | [] => []
  | EvPrefsBegin _ _ true :: rest => sleeps_while_open true rest
  | EvPrefsEnd _ :: rest => sleeps_while_open false rest
  | EvDelay ms :: rest =>
      if open then EvDelay ms :: sleeps_while_open open rest
      else sleeps_while_open open rest
  | EvDelayMicros us :: rest =>
      if open then EvDelayMicros us :: sleeps_while_open open rest
      else sleeps_while_open open rest
  | _ :: rest => sleeps_while_open open rest
  end.

(** What went to the serial port, in order. *)
Fixpoint serial_output (evs : list event) : list msg :=
  match evs with
  | [] => []
  | EvPrint m :: rest => m :: serial_output rest
  | EvPrintln m :: rest => m :: serial_output rest
  | _ :: rest => serial_output rest
  end.

(** The writes to flash among [evs], in order. *)
Fixpoint nvs_writes (evs : list event) : list (string * Z) :=
  match evs with
  | [] => []
  | EvNvsWrite k v :: rest => (k, v) :: nvs_writes rest
  | _ :: rest => nvs_writes rest
  end.

(** The board when [setup] has tested the button (line 132), after power-up
    on the flash contents [m]: [p] is the threshold entry as read, [c] the
    counter entry as read. *)
Definition booted (m : gmap string Z) (ok lk : bool) (w1 : world) : Prop :=
  let p := if ok then default 0 (m !! capKey) else 0 in
  let c := if ok then default 0 (m !! pumpKey) else 0 in
  prefs_started w1 = false
  /\ nvs_ok w1 = ok
  /\ touch_reads w1 = 0%nat
  /\ button_reads w1 = 1%nat
  /\ overflow_protect w1 = 0
  /\ totalPumpsSincePowerUp w1 = 0
  /\ totalPumpsSinceCalibration w1 = c
  /\ fullCapacitiveValue w1 = (if p =? 0 then 45 else to_u16 p)
  /\ nvs w1 = (if ok && (p =? 0) then <[capKey := 45]> m else m)
  /\ nvs_writes (trace w1) = (if ok && (p =? 0) then [(capKey, 45)] else [])
  /\ serial_output (trace w1)
     = [ attach_message lk;
         Text "Total pumps since last calibration: "; Num c ]
       ++ (if p =? 0
           then [ Text "No custom capacitive value set, setting default.";
                  Text "Stored default value: ";
                  Num (if ok then 45 else 0) ]
           else [ Text "Loaded calibrated capacitive value: ";
                  Num (to_u16 p) ])
  /\ begin_calls (trace w1) = 2%nat
  /\ actuations (trace w1) = 0%nat
  /\ cooldowns (trace w1) = 0%nat
  /\ sleeps_while_open false (trace w1) = (if ok then [EvDelay 1000] else [])
  /\ store_open_after false (trace w1) = false.

(** ** Vocabulary of the further properties *)

(** Whether the pump is driven after the events [evs], when it was [on]
    before them: a PWM write to [pumpPin] with a duty other than 0 drives
    it, a write of 0 stops it. *)
Fixpoint pump_on_after (on : bool) (evs : list event) : bool :=
  match evs with
  | [] => on
  | EvLedcWrite pin duty :: rest =>
      if pin =? pumpPin then pump_on_after (negb (duty =? 0)) rest
      else pump_on_after on rest
  | _ :: rest => pump_on_after on rest
  end.

(** The sleeps among [evs] that elapse while the pump is driven. *)
Fixpoint sleeps_while_pump_on (on : bool) (evs : list event) : list event :=
  match evs with
  | [] => []
  | EvLedcWrite pin duty :: rest =>
      if pin =? pumpPin then sleeps_while_pump_on (negb (duty =? 0)) rest
      else sleeps_while_pump_on on rest
  | EvDelay ms :: rest =>
      if on then EvDelay ms :: sleeps_while_pump_on on rest
      else sleeps_while_pump_on on rest
  | EvDelayMicros us :: rest =>
      if on then EvDelayMicros us :: sleeps_while_pump_on on rest
      else sleeps_while_pump_on on rest
  | _ :: rest => sleeps_while_pump_on on rest
  end.

(** Milliseconds slept by [delay] among [evs]. *)
Fixpoint total_delay_ms (evs : list event) : Z :=
  match evs with
  | [] => 0
  | EvDelay ms :: rest => ms + total_delay_ms rest
  | _ :: rest => total_delay_ms rest
  end.

(** Microseconds slept by [delayMicroseconds] among [evs]. *)
Fixpoint total_delay_us (evs : list event) : Z :=
  match evs with
  | [] => 0
  | EvDelayMicros us :: rest => us + total_delay_us rest
  | _ :: rest => total_delay_us rest
  end.

Definition is_touch_read (e : event) : bool :=
  match e with
  | EvTouchRead _ _ => true
  | _ => false
  end.

Definition is_led_write (e : event) : bool :=
  match e with
  | EvDigitalWrite pin _ => pin =? LED_BUILTIN
  | _ => false
  end.

(** The world after [k] rounds of the calibration loop. *)
Fixpoint pump_rounds (T0 : Z) (touch : nat -> Z) (button : nat -> bool)
    (k : nat) (w : world) : world :=
  match k with
  | O => w
  | S k' => pump_rounds T0 touch button k' (pump_round T0 touch button w)
  end.

(** Flash and memory agree: the namespace is closed on a working flash,
    the stored counter (0 when absent) is the counter in memory, and the
    threshold in use is the stored threshold reduced to 16 bits. *)
Definition flash_consistent (w : world) : Prop :=
  prefs_started w = false
  /\ nvs_ok w = true
  /\ default 0 (nvs w !! pumpKey) = totalPumpsSinceCalibration w
  /\ exists V, nvs w !! capKey = Some V /\ fullCapacitiveValue w = to_u16 V.

(** The power-up counter is the number of pump actuations on the trace,
    as a [uint32_t]. *)
Definition counts_actuations (w : world) : Prop :=
  totalPumpsSincePowerUp w = to_u32 (Z.of_nat (actuations (trace w))).

(** The button pressed at power-up and never again. *)
Definition button_tapped (k : nat) : bool := (k =? 0)%nat.

(** ** Concrete boards used in the examples *)

(** A sensor whose first filtered reading is 10 and all later ones 50. *)
Definition scenario_touch (k : nat) : Z := if (k <? 64)%nat then 10 else 50.

(** A sensor that always delivers [v]. *)
Definition steady_touch (v : Z) : nat -> Z := fun _ => v.

(** A sensor that reads 50 for three filtered readings and 10 afterwards. *)
Definition relapse_touch (k : nat) : Z := if (k <? 192)%nat then 50 else 10.

(** The button pressed at power-up, released for two tests, pressed again. *)
Definition calibration_button (k : nat) : bool :=
  (k =? 0)%nat || (3 <=? k)%nat.

(** The button held down / never pressed. *)
Definition button_held : nat -> bool := fun _ => true.
Definition button_released : nat -> bool := fun _ => false.

(** ** Machine integer facts *)

Lemma to_u16_range z : 0 <= to_u16 z <= UINT16_MAX.
Proof.
  unfold to_u16, UINT16_MAX.
  pose proof (Z.mod_pos_bound z (2 ^ 16) ltac:(lia)). lia.
Qed.

Lemma to_u32_range z : 0 <= to_u32 z <= UINT32_MAX.
Proof.
  unfold to_u32, UINT32_MAX.
  pose proof (Z.mod_pos_bound z (2 ^ 32) ltac:(lia)). lia.
Qed.

Lemma to_u16_small z : 0 <= z <= UINT16_MAX -> to_u16 z = z.
Proof. unfold to_u16, UINT16_MAX. intros H. apply Z.mod_small. lia. Qed.

Lemma to_u32_small z : 0 <= z <= UINT32_MAX -> to_u32 z = z.
Proof. unfold to_u32, UINT32_MAX. intros H. apply Z.mod_small. lia. Qed.

Lemma raw_range touch k : 0 <= raw touch k <= UINT16_MAX.
Proof. apply to_u16_range. Qed.

(** ** The samples and their sum *)

Lemma raw_samples_length touch start n : length (raw_samples touch start n) = n.
Proof. unfold raw_samples. rewrite length_map. apply length_seq. Qed.

Lemma raw_samples_S touch start n :
  raw_samples touch start (S n) = raw touch start :: raw_samples touch (S start) n.
Proof. reflexivity. Qed.

Lemma raw_samples_bounds touch start n :
  Forall (fun v => 0 <= v <= UINT16_MAX) (raw_samples touch start n).
Proof.
  unfold raw_samples. apply List.Forall_forall. intros v Hv.
  apply List.in_map_iff in Hv. destruct Hv as [k [<- _]]. apply raw_range.
Qed.

Lemma sum_list_bounds l :
  Forall (fun v => 0 <= v <= UINT16_MAX) l ->
  0 <= sum_list l <= UINT16_MAX * Z.of_nat (length l).
Proof.
  unfold UINT16_MAX.
  induction 1 as [|v l Hv _ IH]; cbn [sum_list fold_right length].
  - lia.
  - fold (sum_list l). lia.
Qed.

(** As long as the exact sum fits 32 bits, the wrapping accumulator is the
    exact sum. *)
Lemma accumulate_exact l : forall acc,
  Forall (fun v => 0 <= v <= UINT16_MAX) l ->
  0 <= acc ->
  acc + UINT16_MAX * Z.of_nat (length l) <= UINT32_MAX ->
  accumulate acc l = acc + sum_list l.
Proof.
  unfold UINT16_MAX, UINT32_MAX.
  induction l as [|v l IH]; intros acc Hall Hacc Hfit.
  - cbn. lia.
  - inversion Hall as [|? ? Hv Hl]; subst.
    cbn [accumulate fold_left sum_list fold_right length] in *.
    fold (sum_list l). fold (accumulate (to_u32 (acc + v)) l).
    rewrite (to_u32_small (acc + v)) by (unfold UINT32_MAX; lia).
    rewrite IH by (assumption || lia). lia.
Qed.

Lemma sum_list_repeat v n : sum_list (repeat v n) = v * Z.of_nat n.
Proof.
  induction n as [|n IH]; cbn [repeat sum_list fold_right].
  - lia.
  - fold (sum_list (repeat v n)). rewrite IH. lia.
Qed.

Lemma truncated_mean_div l :
  Forall (fun v => 0 <= v <= UINT16_MAX) l -> l <> [] ->
  truncated_mean l = sum_list l / Z.of_nat (length l)
  /\ 0 <= truncated_mean l <= UINT16_MAX.
Proof.
  intros Hall Hne. unfold truncated_mean.
  pose proof (sum_list_bounds l Hall) as Hs. unfold UINT16_MAX in *.
  assert (0 < Z.of_nat (length l)) as Hlen by (destruct l; [congruence | cbn; lia]).
  rewrite Z.quot_div_nonneg by lia. split; [reflexivity|].
  split.
  - apply Z.div_pos; lia.
  - apply Z.div_le_upper_bound; lia.
Qed.

Lemma truncated_mean_repeat v n :
  (0 < n)%nat -> 0 <= v -> truncated_mean (repeat v n) = v.
Proof.
  intros Hn Hv. unfold truncated_mean.
  rewrite sum_list_repeat, repeat_length.
  rewrite Z.quot_div_nonneg by lia. apply Z.div_mul. lia.
Qed.

(** ** What [getSmoothedTouch] computes *)

Section Filter.

Variable touch : nat -> Z.

Lemma sample_loop_spec n : forall pin d acc w,
  sample_loop touch n pin d acc w
  = Ok (accumulate acc (raw_samples touch (touch_reads w) n))
       (after_sampling touch pin d n w).
Proof.
  induction n as [|n IH]; intros pin d acc w.
  - destruct w. unfold after_sampling, sample_events. cbn.
    rewrite Nat.add_0_r, app_nil_r. reflexivity.
  - cbn [sample_loop]. unfold bind at 1. unfold touchRead.
    unfold bind at 1. unfold delayMicroseconds, modify.
    rewrite IH. destruct w. unfold after_sampling, sample_events, emit, set_touch_reads.
    cbn [touch_reads trace overflow_protect emptyCapacitiveValue fullCapacitiveValue
         totalPumpsSincePowerUp totalPumpsSinceCalibration prefs_started
         prefs_readOnly nvs nvs_ok ledc_ok button_reads seq flat_map].
    rewrite raw_samples_S. cbn [accumulate fold_left].
    fold (raw touch touch_reads0).
    rewrite Nat.add_succ_r. rewrite <- !app_assoc. reflexivity.
Qed.

Lemma getSmoothedTouch_spec pin samples d w :
  1 <= samples <= UINT16_MAX ->
  getSmoothedTouch touch pin samples d w
  = Ok (truncated_mean (raw_samples touch (touch_reads w) (Z.to_nat samples)))
       (after_sampling touch pin d (Z.to_nat samples) w).
Proof.
  intros Hs. unfold getSmoothedTouch, bind. rewrite sample_loop_spec.
  destruct (Z.eqb_spec samples 0) as [->|_]; [lia|].
  unfold ret. f_equal.
  set (l := raw_samples touch (touch_reads w) (Z.to_nat samples)).
  pose proof (raw_samples_bounds touch (touch_reads w) (Z.to_nat samples)) as Hall.
  fold l in Hall.
  assert (length l = Z.to_nat samples) as Hlen by apply raw_samples_length.
  assert (l <> []) as Hne by (intros E; rewrite E in Hlen; cbn in Hlen; lia).
  destruct (truncated_mean_div l Hall Hne) as [Hdiv Hrange].
  rewrite accumulate_exact; [| assumption | lia |].
  - rewrite Z.add_0_l. rewrite Hdiv, Hlen, Z2Nat.id by lia.
    apply to_u16_small. rewrite Hdiv, Hlen, Z2Nat.id in Hrange by lia. exact Hrange.
  - rewrite Hlen, Z2Nat.id by lia. unfold UINT16_MAX, UINT32_MAX in *. nia.
Qed.

End Filter.

(** ** Reading traces *)

Lemma count_ev_app p l1 l2 :
  count_ev p (l1 ++ l2) = (count_ev p l1 + count_ev p l2)%nat.
Proof. unfold count_ev. rewrite List.filter_app, length_app. reflexivity. Qed.

Lemma count_ev_sample_events p touch pin d start n :
  (forall q v, p (EvTouchRead q v) = false) ->
  (forall us, p (EvDelayMicros us) = false) ->
  count_ev p (sample_events touch pin d start n) = 0%nat.
Proof.
  intros Ht Hd. unfold sample_events, count_ev.
  revert start. induction n as [|n IH]; intros start; cbn [seq flat_map].
  - reflexivity.
  - cbn [app List.filter]. rewrite Ht, Hd. apply IH.
Qed.

Lemma store_open_after_app l1 : forall o l2,
  store_open_after o (l1 ++ l2) = store_open_after (store_open_after o l1) l2.
Proof.
  induction l1 as [|e l1 IH]; intros o l2; [reflexivity|].
  destruct e; cbn [app store_open_after]; try apply IH.
  destruct ok; apply IH.
Qed.

Lemma sleeps_while_open_app l1 : forall o l2,
  sleeps_while_open o (l1 ++ l2)
  = sleeps_while_open o l1 ++ sleeps_while_open (store_open_after o l1) l2.
Proof.
  induction l1 as [|e l1 IH]; intros o l2; [reflexivity|].
  destruct e; cbn [app sleeps_while_open store_open_after]; try apply IH.
  - destruct o; cbn [app]; rewrite IH; reflexivity.
  - destruct o; cbn [app]; rewrite IH; reflexivity.
  - destruct ok; apply IH.
Qed.

Lemma store_open_after_sample_events o touch pin d start n :
  store_open_after o (sample_events touch pin d start n) = o.
Proof.
  unfold sample_events. revert start.
  induction n as [|n IH]; intros start; cbn [seq flat_map app store_open_after];
    [reflexivity | apply IH].
Qed.

Lemma sleeps_closed_sample_events touch pin d start n :
  sleeps_while_open false (sample_events touch pin d start n) = [].
Proof.
  unfold sample_events. revert start.
  induction n as [|n IH]; intros start; cbn [seq flat_map app sleeps_while_open];
    [reflexivity | apply IH].
Qed.

Lemma serial_output_app l1 l2 :
  serial_output (l1 ++ l2) = serial_output l1 ++ serial_output l2.
Proof.
  induction l1 as [|e l1 IH]; [reflexivity|].
  destruct e; cbn [app serial_output]; rewrite ?IH; reflexivity.
Qed.

Lemma nvs_writes_app l1 l2 :
  nvs_writes (l1 ++ l2) = nvs_writes l1 ++ nvs_writes l2.
Proof.
  induction l1 as [|e l1 IH]; [reflexivity|].
  destruct e; cbn [app nvs_writes]; rewrite ?IH; reflexivity.
Qed.

Lemma nvs_writes_sample_events touch pin d start n :
  nvs_writes (sample_events touch pin d start n) = [].
Proof.
  unfold sample_events. revert start.
  induction n as [|n IH]; intros start; cbn [seq flat_map app nvs_writes];
    [reflexivity | apply IH].
Qed.

Lemma snoc_five {A} (l : list A) a b c d e :
  ((((l ++ [a]) ++ [b]) ++ [c]) ++ [d]) ++ [e] = l ++ [a; b; c; d; e].
Proof. rewrite <- !app_assoc. reflexivity. Qed.

Lemma bind_Ok {A B} (m : M A) (k : A -> M B) w b w' :
  bind m k w = Ok b w' ->
  exists a w1, m w = Ok a w1 /\ k a w1 = Ok b w'.
Proof.
  unfold bind. destruct (m w) as [a w1| |]; [|discriminate..].
  intros H. exists a, w1. split; [reflexivity | exact H].
Qed.

Lemma keys_distinct : pumpKey <> capKey.
Proof. discriminate. Qed.

(** ** Symbolic execution of straight-line sketch code

    The primitives, the monad operations and the field updates unfold as
    soon as they are applied to a world, so that [cbn] runs a straight-line
    piece of the sketch on a world given by its fields. *)

Arguments bind {A B} m k w /.
Arguments ret {A} a w /.
Arguments gets {A} f w /.
Arguments modify f w /.
Arguments delay ms w /.
Arguments delayMicroseconds us w /.
Arguments pinMode pin mode w /.
Arguments digitalWrite pin level w /.
Arguments ledcWrite pin duty w /.
Arguments ledcAttach pin f r w /.
Arguments digitalRead button pin w /.
Arguments Serial_begin baud w /.
Arguments Serial_print m w /.
Arguments Serial_println m w /.
Arguments prefs_begin name readOnly w /.
Arguments prefs_end w /.
Arguments prefs_get key defaultValue w /.
Arguments prefs_put key value w /.
Arguments prefs_getInt /.
Arguments prefs_putInt /.
Arguments prefs_getUInt /.
Arguments prefs_putUInt /.
Arguments emit e w /.
Arguments add_events evs w /.
Arguments set_overflow_protect v w /.
Arguments set_emptyCapacitiveValue v w /.
Arguments set_fullCapacitiveValue v w /.
Arguments set_totalPumpsSincePowerUp v w /.
Arguments set_totalPumpsSinceCalibration v w /.
Arguments set_prefs st ro w /.
Arguments set_nvs m w /.
Arguments set_nvs_ok b w /.
Arguments set_button_reads n w /.
Arguments getSmoothedTouch : simpl never.
Arguments sample_events : simpl never.
Arguments raw_samples : simpl never.
Arguments smoothed_at : simpl never.
Arguments count_ev : simpl never.
Arguments actuations : simpl never.
Arguments cooldowns : simpl never.
Arguments begin_calls : simpl never.
Arguments calibration : simpl never.
Arguments setup_end : simpl never.

Ltac run_sketch := cbn.

Ltac same_world := f_equal; f_equal; rewrite <- ?app_assoc; reflexivity.

Ltac writes_trace :=
  rewrite ?nvs_writes_app, ?nvs_writes_sample_events; cbn [nvs_writes app];
  rewrite ?app_nil_r; try reflexivity.

(** Counting events in a trace built by appending. *)
Ltac count_trace :=
  unfold actuations, cooldowns, begin_calls in *;
  rewrite ?count_ev_app;
  rewrite ?count_ev_sample_events by reflexivity;
  unfold count_ev in *; cbn; try lia.

(** ** [runPump] *)

Lemma runPump_store_opens d w :
  prefs_started w = false -> nvs_ok w = true ->
  runPump d w
  = Ok tt (set_prefs false false
            (set_nvs (<[pumpKey := to_u32 (totalPumpsSinceCalibration w + 1)]> (nvs w))
              (set_totalPumpsSinceCalibration (to_u32 (totalPumpsSinceCalibration w + 1))
                (set_totalPumpsSincePowerUp (to_u32 (totalPumpsSincePowerUp w + 1))
                  (add_events
                     (pump_events d (to_u32 (totalPumpsSinceCalibration w + 1))) w))))).
Proof.
  intros Hs Hok. destruct w. cbn in Hs, Hok. subst.
  unfold runPump, pump_events. run_sketch. same_world.
Qed.

Lemma runPump_store_refused d w :
  prefs_started w = false -> nvs_ok w = false ->
  runPump d w
  = Ok tt (set_prefs false false
            (set_totalPumpsSinceCalibration (to_u32 (totalPumpsSinceCalibration w + 1))
              (set_totalPumpsSincePowerUp (to_u32 (totalPumpsSincePowerUp w + 1))
                (add_events (pump_events_no_store d) w)))).
Proof.
  intros Hs Hok. destruct w. cbn in Hs, Hok. subst.
  unfold runPump, pump_events_no_store. run_sketch. same_world.
Qed.

(** What holds of every call of [runPump], whatever the state of the
    [Preferences] object and of the flash. *)
Lemma runPump_frame d w :
  exists w' evs,
    runPump d w = Ok tt w'
    /\ trace w' = trace w ++ evs
    /\ actuations evs = 1%nat /\ begin_calls evs = 1%nat
    /\ (d <> 30000 -> cooldowns evs = 0%nat)
    /\ totalPumpsSincePowerUp w' = to_u32 (totalPumpsSincePowerUp w + 1)
    /\ totalPumpsSinceCalibration w' = to_u32 (totalPumpsSinceCalibration w + 1)
    /\ overflow_protect w' = overflow_protect w
    /\ fullCapacitiveValue w' = fullCapacitiveValue w
    /\ emptyCapacitiveValue w' = emptyCapacitiveValue w
    /\ prefs_started w' = false
    /\ nvs_ok w' = nvs_ok w /\ ledc_ok w' = ledc_ok w
    /\ touch_reads w' = touch_reads w /\ button_reads w' = button_reads w
    /\ nvs w' !! capKey = nvs w !! capKey
    /\ (nvs_ok w = false -> prefs_started w = false -> nvs w' = nvs w).
Proof.
  destruct w as [o e f pu pc st ro m ok lk tr br t].
  unfold runPump. run_sketch.
  destruct st; [destruct ro | destruct ok]; cbn;
    (eexists; eexists; split; [reflexivity|]; cbn;
     split; [rewrite <- ?app_assoc; cbn [app]; reflexivity|]);
    repeat split; try reflexivity; try discriminate.
  all: try (apply lookup_insert_ne; exact keys_distinct).
  all: intros Hd; unfold cooldowns, count_ev; cbn;
    destruct (Z.eqb_spec d 30000); [contradiction | reflexivity].
Qed.

(** ** One iteration of [loop] *)

Section Loop.

Variable T0 : Z.
Variable touch : nat -> Z.

Lemma loop_reads w :
  loop T0 touch w
  = loop_after_reading (smoothed_at touch (touch_reads w))
                       (after_sampling touch T0 50 64 w).
Proof.
  unfold loop, bind, TOUCH_PIN.
  rewrite getSmoothedTouch_spec by (unfold UINT16_MAX; lia). reflexivity.
Qed.

Lemma loop_after_reading_idle v w :
  v <= fullCapacitiveValue w ->
  loop_after_reading v w
  = Ok tt (add_events (stats_events v w ++ [EvDelay 2000]) w).
Proof.
  intros Hv. destruct w. cbn in Hv.
  unfold loop_after_reading, stats_events. run_sketch.
  rewrite Z.gtb_ltb. destruct (Z.ltb_spec fullCapacitiveValue0 v); [lia|].
  cbn. same_world.
Qed.

Lemma loop_after_reading_cooldown v w :
  fullCapacitiveValue w < v -> 5 < overflow_protect w ->
  loop_after_reading v w
  = Ok tt (set_overflow_protect 0
            (add_events (stats_events v w
                         ++ [EvPrintln (Text "Overflow protect");
                             EvDelay 30000; EvDelay 2000]) w)).
Proof.
  intros Hv Ho. destruct w. cbn in Hv, Ho.
  unfold loop_after_reading, stats_events. run_sketch.
  rewrite Z.gtb_ltb. destruct (Z.ltb_spec fullCapacitiveValue0 v); [|lia].
  cbn. rewrite Z.gtb_ltb. destruct (Z.ltb_spec 5 overflow_protect0); [|lia].
  cbn. same_world.
Qed.

Lemma loop_after_reading_pump v w :
  fullCapacitiveValue w < v -> overflow_protect w <= 5 ->
  loop_after_reading v w
  = Ok tt (add_events [EvDelay 2000]
            (set_overflow_protect (overflow_protect w + 1)
              (after (runPump 1000) (add_events (stats_events v w) w)))).
Proof.
  intros Hv Ho. destruct w as [o e f pu pc st ro m ok lk tr br t]. cbn in Hv, Ho.
  unfold loop_after_reading, stats_events, after, runPump. run_sketch.
  rewrite Z.gtb_ltb. destruct (Z.ltb_spec f v); [|lia].
  cbn. rewrite Z.gtb_ltb. destruct (Z.ltb_spec 5 o); [lia|].
  destruct st; [destruct ro | destruct ok]; cbn; same_world.
Qed.

Lemma loop_step w :
  exists w',
    loop T0 touch w = Ok tt w'
    /\ touch_reads w' = (touch_reads w + 64)%nat
    /\ button_reads w' = button_reads w
    /\ fullCapacitiveValue w' = fullCapacitiveValue w
    /\ nvs w' !! capKey = nvs w !! capKey
    /\ nvs_ok w' = nvs_ok w
    /\ (prefs_started w = false -> prefs_started w' = false)
    /\ (smoothed_at touch (touch_reads w) <= fullCapacitiveValue w ->
          overflow_protect w' = overflow_protect w
          /\ actuations (trace w') = actuations (trace w)
          /\ cooldowns (trace w') = cooldowns (trace w)
          /\ begin_calls (trace w') = begin_calls (trace w)
          /\ totalPumpsSincePowerUp w' = totalPumpsSincePowerUp w
          /\ totalPumpsSinceCalibration w' = totalPumpsSinceCalibration w
          /\ nvs w' = nvs w)
    /\ (fullCapacitiveValue w < smoothed_at touch (touch_reads w) ->
        5 < overflow_protect w ->
          overflow_protect w' = 0
          /\ actuations (trace w') = actuations (trace w)
          /\ cooldowns (trace w') = S (cooldowns (trace w))
          /\ begin_calls (trace w') = begin_calls (trace w)
          /\ totalPumpsSincePowerUp w' = totalPumpsSincePowerUp w
          /\ totalPumpsSinceCalibration w' = totalPumpsSinceCalibration w
          /\ nvs w' = nvs w)
    /\ (fullCapacitiveValue w < smoothed_at touch (touch_reads w) ->
        overflow_protect w <= 5 ->
          overflow_protect w' = overflow_protect w + 1
          /\ actuations (trace w') = S (actuations (trace w))
          /\ cooldowns (trace w') = cooldowns (trace w)
          /\ begin_calls (trace w') = S (begin_calls (trace w))
          /\ totalPumpsSincePowerUp w' = to_u32 (totalPumpsSincePowerUp w + 1)
          /\ totalPumpsSinceCalibration w'
             = to_u32 (totalPumpsSinceCalibration w + 1)).
Proof.
  rewrite loop_reads.
  set (v := smoothed_at touch (touch_reads w)).
  set (ws := after_sampling touch T0 50 64 w).
  destruct (Z_le_gt_dec v (fullCapacitiveValue w)) as [Hle|Hgt].
  - (* not over the threshold *)
    rewrite loop_after_reading_idle by exact Hle.
    eexists. split; [reflexivity|]. cbn.
    repeat split; try reflexivity; try lia; try tauto.
    all: intros; repeat split; try reflexivity.
    all: count_trace.
  - destruct (Z_le_gt_dec (overflow_protect w) 5) as [Ho|Ho].
    + (* pump *)
      rewrite loop_after_reading_pump by (cbn; lia).
      destruct (runPump_frame 1000 (add_events (stats_events v ws) ws))
        as (w1 & evs & Hrun & Htr & Ha & Hb & Hc & Hpu & Hpc & Hov & Hfull & _
            & Hst & Hok & _ & Htouch & Hbut & Hcap & _).
      unfold after. rewrite Hrun.
      eexists. split; [reflexivity|]. cbn.
      rewrite Htouch, Hbut, Hfull, Hcap, Hok, Hst, Htr, Hpu, Hpc. cbn.
      repeat split; try reflexivity; try lia.
      all: intros; repeat split; try reflexivity; try lia.
      all: specialize (Hc ltac:(lia)); count_trace.
    + (* cool-down *)
      rewrite loop_after_reading_cooldown by (cbn; lia).
      eexists. split; [reflexivity|]. cbn.
      repeat split; try reflexivity; try lia; try tauto.
      all: intros; repeat split; try reflexivity; try lia.
      all: count_trace.
Qed.

End Loop.

(** ** Runs of [loop] *)

Section Cycle.

Variable T0 : Z.
Variable touch : nat -> Z.

Lemma loop_total w : loop T0 touch w = Ok tt (after (loop T0 touch) w).
Proof.
  destruct (loop_step T0 touch w) as (w' & Hrun & _).
  unfold after. rewrite Hrun. reflexivity.
Qed.

Lemma iterations_S n w :
  iterations T0 touch (S n) w = after (loop T0 touch) (iterations T0 touch n w).
Proof. reflexivity. Qed.

Lemma loops_iterations n : forall w,
  loops T0 touch n w = Ok tt (iterations T0 touch n w).
Proof.
  induction n as [|n IH]; intros w; [reflexivity|].
  cbn [loops]. unfold bind. rewrite loop_total, IH.
  unfold iterations. rewrite Nat.iter_succ_r. reflexivity.
Qed.

(** While the counter is below the trip limit, every over-threshold
    iteration pumps once and counts once. *)
Lemma pumping_run k : forall w,
  0 <= overflow_protect w ->
  overflow_protect w + Z.of_nat k <= 6 ->
  (forall i, (i < k)%nat ->
     fullCapacitiveValue w < smoothed_at touch (touch_reads w + 64 * i)) ->
  let wk := iterations T0 touch k w in
  overflow_protect wk = overflow_protect w + Z.of_nat k
  /\ actuations (trace wk) = (actuations (trace w) + k)%nat
  /\ cooldowns (trace wk) = cooldowns (trace w)
  /\ touch_reads wk = (touch_reads w + 64 * k)%nat
  /\ fullCapacitiveValue wk = fullCapacitiveValue w.
Proof.
  induction k as [|k IH]; intros w Ho Hk Hread; cbn zeta.
  - change (iterations T0 touch 0 w) with w. repeat split; lia.
  - destruct (IH w Ho ltac:(lia) ltac:(intros; apply Hread; lia))
      as (Hov & Hact & Hcool & Htouch & Hfull).
    rewrite iterations_S.
    set (wk := iterations T0 touch k w) in *.
    destruct (loop_step T0 touch wk)
      as (w' & Hrun & Ht' & _ & Hf' & _ & _ & _ & _ & _ & Hpump).
    unfold after. rewrite Hrun.
    destruct Hpump as (Ho' & Ha' & Hc' & _).
    + rewrite Hfull, Htouch. apply Hread. lia.
    + lia.
    + repeat split; lia.
Qed.

End Cycle.

(** C1. In the decision loop, every iteration whose filtered reading
    exceeds the threshold while the overflow counter is at most 5 actuates
    the pump once and increments the counter.  Starting from a counter of
    0, eight consecutive over-threshold iterations go: six actuations
    (counter 1..6), then an iteration without actuation that pauses 30 s
    and resets the counter to 0, then a normal actuation.  With threshold
    45 and the readings 10, 50, 50, 50, 50, 50, 50, 50, iterations 2 to 7
    actuate (counter 1..6) and iteration 8 cools down without actuating
    and leaves the counter at 0. *)
Theorem overflow_protect_cycle (T0 : Z) (touch : nat -> Z) :
  (forall w,
      fullCapacitiveValue w < smoothed_at touch (touch_reads w) ->
      overflow_protect w <= 5 ->
      exists w',
        loop T0 touch w = Ok tt w'
        /\ actuations (trace w') = S (actuations (trace w))
        /\ totalPumpsSincePowerUp w' = to_u32 (totalPumpsSincePowerUp w + 1)
        /\ overflow_protect w' = overflow_protect w + 1)
  /\ (forall w,
      overflow_protect w = 0 ->
      (forall i, (i < 8)%nat ->
         fullCapacitiveValue w < smoothed_at touch (touch_reads w + 64 * i)) ->
      let at_ n := iterations T0 touch n w in
      loops T0 touch 8 w = Ok tt (at_ 8%nat)
      /\ (forall k, (1 <= k <= 6)%nat ->
            overflow_protect (at_ k) = Z.of_nat k
            /\ actuations (trace (at_ k)) = (actuations (trace w) + k)%nat
            /\ cooldowns (trace (at_ k)) = cooldowns (trace w))
      /\ (overflow_protect (at_ 7%nat) = 0
          /\ actuations (trace (at_ 7%nat)) = actuations (trace (at_ 6%nat))
          /\ cooldowns (trace (at_ 7%nat)) = S (cooldowns (trace (at_ 6%nat))))
      /\ (overflow_protect (at_ 8%nat) = 1
          /\ actuations (trace (at_ 8%nat)) = S (actuations (trace (at_ 7%nat)))
          /\ cooldowns (trace (at_ 8%nat)) = cooldowns (trace (at_ 7%nat))))
  /\ (let w0 := power_up ∅ true true in
      fullCapacitiveValue w0 = 45
      /\ overflow_protect w0 = 0
      /\ List.map (fun n => smoothed_at scenario_touch (64 * n)) (seq 0 8)
         = [10; 50; 50; 50; 50; 50; 50; 50]
      /\ loops T0 scenario_touch 8 w0 = Ok tt (iterations T0 scenario_touch 8 w0)
      /\ List.map (fun n => snapshot (iterations T0 scenario_touch n w0)) (seq 1 8)
         = [ (0, 0%nat, 0%nat); (1, 1%nat, 0%nat); (2, 2%nat, 0%nat);
             (3, 3%nat, 0%nat); (4, 4%nat, 0%nat); (5, 5%nat, 0%nat);
             (6, 6%nat, 0%nat); (0, 6%nat, 1%nat) ]).
Proof.
  split; [|split].
  - intros w Hv Ho.
    destruct (loop_step T0 touch w)
      as (w' & Hrun & _ & _ & _ & _ & _ & _ & _ & _ & Hpump).
    destruct (Hpump Hv Ho) as (Ho' & Ha' & _ & _ & Hpu & _).
    exists w'. repeat split; assumption.
  - intros w Ho Hread at_.
    split; [apply loops_iterations|].
    assert (Hsix : forall k, (k <= 6)%nat ->
               overflow_protect (at_ k) = Z.of_nat k
               /\ actuations (trace (at_ k)) = (actuations (trace w) + k)%nat
               /\ cooldowns (trace (at_ k)) = cooldowns (trace w)
               /\ touch_reads (at_ k) = (touch_reads w + 64 * k)%nat
               /\ fullCapacitiveValue (at_ k) = fullCapacitiveValue w).
    { intros k Hk.
      destruct (pumping_run T0 touch k w ltac:(lia) ltac:(lia)
                  ltac:(intros; apply Hread; lia))
        as (H1 & H2 & H3 & H4 & H5).
      unfold at_. repeat split; try assumption. lia. }
    split; [intros k Hk; destruct (Hsix k ltac:(lia)) as (?&?&?&_); auto|].
    destruct (Hsix 6%nat ltac:(lia)) as (Ho6 & Ha6 & Hc6 & Ht6 & Hf6).
    (* seventh iteration: cool-down *)
    destruct (loop_step T0 touch (at_ 6%nat))
      as (w7 & Hrun7 & Ht7 & _ & Hf7 & _ & _ & _ & _ & Hcool7 & _).
    assert (E7 : at_ 7%nat = w7).
    { unfold at_. rewrite iterations_S. unfold after.
      fold (at_ 6%nat). rewrite Hrun7. reflexivity. }
    destruct Hcool7 as (Ho7 & Ha7 & Hc7 & _).
    { rewrite Hf6, Ht6. apply Hread. lia. }
    { lia. }
    (* eighth iteration: pump again *)
    destruct (loop_step T0 touch w7)
      as (w8 & Hrun8 & _ & _ & _ & _ & _ & _ & _ & _ & Hpump8).
    assert (E8 : at_ 8%nat = w8).
    { unfold at_. rewrite iterations_S. unfold after.
      fold (at_ 7%nat). rewrite E7, Hrun8. reflexivity. }
    destruct Hpump8 as (Ho8 & Ha8 & Hc8 & _).
    { rewrite Hf7, Ht7, Hf6, Ht6.
      replace (touch_reads w + 64 * 6 + 64)%nat with (touch_reads w + 64 * 7)%nat
        by lia.
      apply Hread. lia. }
    { lia. }
    rewrite E8, E7. repeat split; try assumption. lia.
  - cbv zeta. split; [reflexivity|]. split; [reflexivity|].
    split; [vm_compute; reflexivity|].
    split; [apply loops_iterations|].
    vm_compute. reflexivity.
Qed.

Lemma raw_samples_steady v start n :
  raw_samples (steady_touch v) start n = repeat (to_u16 v) n.
Proof.
  revert start. induction n as [|n IH]; intros start; [reflexivity|].
  rewrite raw_samples_S, IH. reflexivity.
Qed.

Lemma smoothed_at_steady v k : smoothed_at (steady_touch v) k = to_u16 v.
Proof.
  unfold smoothed_at. rewrite raw_samples_steady.
  apply truncated_mean_repeat; [lia | apply to_u16_range].
Qed.

(** The cycle on a board whose sensor reads 50 against the default
    threshold of 45. *)
Lemma overflow_protect_cycle_witness :
  let w0 := power_up ∅ true true in
  let at_ n := iterations 4 (steady_touch 50) n w0 in
  (exists w',
      loop 4 (steady_touch 50) w0 = Ok tt w'
      /\ actuations (trace w') = 1%nat
      /\ totalPumpsSincePowerUp w' = 1
      /\ overflow_protect w' = 1)
  /\ overflow_protect (at_ 6%nat) = 6
  /\ overflow_protect (at_ 7%nat) = 0
  /\ cooldowns (trace (at_ 7%nat)) = S (cooldowns (trace (at_ 6%nat)))
  /\ overflow_protect (at_ 8%nat) = 1.
Proof.
  intros w0 at_.
  pose proof (overflow_protect_cycle 4 (steady_touch 50)) as (Hstep & Hcycle & _).
  split.
  - destruct (Hstep w0) as (w' & Hrun & Ha & Hp & Ho).
    + vm_compute. reflexivity.
    + vm_compute. discriminate.
    + exists w'. repeat split; assumption.
  - destruct (Hcycle w0) as (_ & Hsix & (H7 & _ & Hc7) & (H8 & _)).
    + reflexivity.
    + intros i _. rewrite smoothed_at_steady. vm_compute. reflexivity.
    + destruct (Hsix 6%nat ltac:(lia)) as (H6 & _).
      repeat split; assumption.
Defined.

(** C7 (as the code has it). The overflow counter is reset to 0 when the
    cool-down path fires, and only then: an iteration whose reading does
    not exceed the threshold leaves the counter as it was, an iteration
    that pumps adds 1 to it, and any iteration that lowers the counter is
    a cool-down. *)
Theorem overflow_counter_reset_only_by_cooldown
    (T0 : Z) (touch : nat -> Z) (w : world) :
  exists w',
    loop T0 touch w = Ok tt w'
    /\ (fullCapacitiveValue w < smoothed_at touch (touch_reads w) ->
        5 < overflow_protect w ->
        overflow_protect w' = 0
        /\ cooldowns (trace w') = S (cooldowns (trace w)))
    /\ (smoothed_at touch (touch_reads w) <= fullCapacitiveValue w ->
        overflow_protect w' = overflow_protect w
        /\ cooldowns (trace w') = cooldowns (trace w)
        /\ actuations (trace w') = actuations (trace w))
    /\ (fullCapacitiveValue w < smoothed_at touch (touch_reads w) ->
        overflow_protect w <= 5 ->
        overflow_protect w' = overflow_protect w + 1
        /\ cooldowns (trace w') = cooldowns (trace w)
        /\ actuations (trace w') = S (actuations (trace w)))
    /\ (overflow_protect w' < overflow_protect w ->
        fullCapacitiveValue w < smoothed_at touch (touch_reads w)
        /\ 5 < overflow_protect w
        /\ overflow_protect w' = 0
        /\ cooldowns (trace w') = S (cooldowns (trace w))
        /\ actuations (trace w') = actuations (trace w))
    /\ (cooldowns (trace w') = cooldowns (trace w) ->
        overflow_protect w' = overflow_protect w
        \/ overflow_protect w' = overflow_protect w + 1).
Proof.
  destruct (loop_step T0 touch w)
    as (w' & Hrun & _ & _ & _ & _ & _ & _ & Hidle & Hcool & Hpump).
  exists w'. split; [exact Hrun|].
  split; [|split; [|split; [|split]]].
  - intros Hv Ho. destruct (Hcool Hv Ho) as (H0 & _ & Hc & _). auto.
  - intros Hv. destruct (Hidle Hv) as (H0 & Ha & Hc & _). auto.
  - intros Hv Ho. destruct (Hpump Hv Ho) as (H0 & Ha & Hc & _). auto.
  - intros Hlt.
    destruct (Z_le_gt_dec (smoothed_at touch (touch_reads w)) (fullCapacitiveValue w))
      as [Hle|Hgt].
    + destruct (Hidle Hle) as (H0 & _). lia.
    + destruct (Z_le_gt_dec (overflow_protect w) 5) as [Ho|Ho].
      * destruct (Hpump ltac:(lia) Ho) as (H0 & _). lia.
      * destruct (Hcool ltac:(lia) ltac:(lia)) as (H0 & Ha & Hc & _).
        repeat split; solve [assumption | lia].
  - intros Hsame.
    destruct (Z_le_gt_dec (smoothed_at touch (touch_reads w)) (fullCapacitiveValue w))
      as [Hle|Hgt].
    + destruct (Hidle Hle) as (H0 & _). left. exact H0.
    + destruct (Z_le_gt_dec (overflow_protect w) 5) as [Ho|Ho].
      * destruct (Hpump ltac:(lia) Ho) as (H0 & _). right. exact H0.
      * destruct (Hcool ltac:(lia) ltac:(lia)) as (_ & _ & Hc & _). lia.
Qed.

Lemma overflow_counter_reset_only_by_cooldown_witness :
  (exists w',
      loop 4 (steady_touch 50) (set_overflow_protect 6 (power_up ∅ true true))
      = Ok tt w'
      /\ overflow_protect w' = 0 /\ cooldowns (trace w') = 1%nat)
  /\ (exists w',
      loop 4 (steady_touch 10) (set_overflow_protect 6 (power_up ∅ true true))
      = Ok tt w'
      /\ overflow_protect w' = 6 /\ cooldowns (trace w') = 0%nat)
  /\ (exists w',
      loop 4 (steady_touch 50) (set_overflow_protect 3 (power_up ∅ true true))
      = Ok tt w'
      /\ overflow_protect w' = 4 /\ actuations (trace w') = 1%nat).
Proof.
  split; [|split].
  - destruct (overflow_counter_reset_only_by_cooldown 4 (steady_touch 50)
                (set_overflow_protect 6 (power_up ∅ true true)))
      as (w' & Hrun & Hcool & _).
    destruct Hcool as (H0 & Hc).
    + vm_compute. reflexivity.
    + vm_compute. reflexivity.
    + exists w'. repeat split; assumption.
  - destruct (overflow_counter_reset_only_by_cooldown 4 (steady_touch 10)
                (set_overflow_protect 6 (power_up ∅ true true)))
      as (w' & Hrun & _ & Hidle & _).
    destruct Hidle as (H0 & Hc & _).
    + vm_compute. discriminate.
    + exists w'. repeat split; assumption.
  - destruct (overflow_counter_reset_only_by_cooldown 4 (steady_touch 50)
                (set_overflow_protect 3 (power_up ∅ true true)))
      as (w' & Hrun & _ & _ & Hpump & _).
    destruct Hpump as (H0 & _ & Ha).
    + vm_compute. reflexivity.
    + vm_compute. discriminate.
    + exists w'. repeat split; assumption.
Defined.

(** C7 fails as stated: from power-up, three over-threshold iterations
    bring the counter to 3, and the following iteration, whose reading 10
    does not exceed the threshold 45, leaves it at 3. *)
Lemma overflow_counter_not_reset_when_idle :
  let w3 := iterations 4 relapse_touch 3 (power_up ∅ true true) in
  let w4 := iterations 4 relapse_touch 4 (power_up ∅ true true) in
  overflow_protect w3 = 3
  /\ smoothed_at relapse_touch (touch_reads w3) = 10
  /\ fullCapacitiveValue w3 = 45
  /\ loop 4 relapse_touch w3 = Ok tt w4
  /\ overflow_protect w4 = 3.
Proof. vm_compute. repeat split; reflexivity. Qed.

(** ** Pump actuations and the flash *)

(** C4 (as the code has it). Every pump actuation adds 1 to the power-up
    counter and 1 to the calibration-epoch counter, in 32-bit unsigned
    arithmetic, so by exactly 1 unless the counter stands at 4294967295;
    when the namespace opens for the actuation, the persisted value of the
    calibration-epoch counter equals its in-memory value at the end; when
    the flash refuses to open it, the flash is left as it was. *)
Theorem runPump_counts_and_persists (d : Z) (w : world) :
  exists w',
    runPump d w = Ok tt w'
    /\ actuations (trace w') = S (actuations (trace w))
    /\ totalPumpsSincePowerUp w' = to_u32 (totalPumpsSincePowerUp w + 1)
    /\ totalPumpsSinceCalibration w' = to_u32 (totalPumpsSinceCalibration w + 1)
    /\ (0 <= totalPumpsSincePowerUp w < UINT32_MAX ->
        totalPumpsSincePowerUp w' = totalPumpsSincePowerUp w + 1)
    /\ (0 <= totalPumpsSinceCalibration w < UINT32_MAX ->
        totalPumpsSinceCalibration w' = totalPumpsSinceCalibration w + 1)
    /\ (prefs_started w = false -> nvs_ok w = true ->
        nvs w' !! pumpKey = Some (totalPumpsSinceCalibration w'))
    /\ (prefs_started w = false -> nvs_ok w = false -> nvs w' = nvs w).
Proof.
  destruct (runPump_frame d w)
    as (w' & evs & Hrun & Htr & Ha & _ & _ & Hpu & Hpc & _ & _ & _ & _ & _ & _
        & _ & _ & _ & Hkeep).
  exists w'. split; [exact Hrun|].
  split; [rewrite Htr; unfold actuations in *; rewrite count_ev_app; lia|].
  split; [exact Hpu|]. split; [exact Hpc|].
  split; [intros H; rewrite Hpu; apply to_u32_small; unfold UINT32_MAX in *; lia|].
  split; [intros H; rewrite Hpc; apply to_u32_small; unfold UINT32_MAX in *; lia|].
  split.
  - intros Hs Hok. rewrite (runPump_store_opens d w Hs Hok) in Hrun.
    injection Hrun as <-. cbn. apply lookup_insert_eq.
  - intros Hs Hok. apply Hkeep; assumption.
Qed.

Lemma runPump_counts_and_persists_witness :
  exists w',
    runPump 1000 (power_up {[ pumpKey := 7 ]} true true) = Ok tt w'
    /\ totalPumpsSincePowerUp w' = 1
    /\ totalPumpsSinceCalibration w' = 1
    /\ nvs w' !! pumpKey = Some 1.
Proof.
  destruct (runPump_counts_and_persists 1000 (power_up {[ pumpKey := 7 ]} true true))
    as (w' & Hrun & _ & _ & _ & Hpu & Hpc & Hnvs & _).
  exists w'. split; [exact Hrun|].
  split; [apply Hpu; vm_compute; split; [discriminate | reflexivity]|].
  pose proof (Hpc ltac:(vm_compute; split; [discriminate | reflexivity])) as E.
  split; [exact E|].
  rewrite (Hnvs eq_refl eq_refl). f_equal. exact E.
Defined.

(** C4 fails as stated in two places.  On a board whose flash refuses to
    open the namespace, the actuation counts in memory and persists
    nothing.  On a board whose flash holds the largest 32-bit count,
    [setup] loads it and the next actuation wraps the counter to 0. *)
Lemma runPump_not_persisted_or_wrapping :
  (let w := power_up ∅ false true in
   returns (runPump 1000 w) = true
   /\ totalPumpsSinceCalibration (after (runPump 1000) w) = 1
   /\ nvs (after (runPump 1000) w) !! pumpKey = None)
  /\ (let w := after (setup 4 (steady_touch 10) button_released 0)
                     (power_up {[ pumpKey := UINT32_MAX ]} true true) in
      totalPumpsSinceCalibration w = 4294967295
      /\ returns (runPump 1000 w) = true
      /\ totalPumpsSinceCalibration (after (runPump 1000) w) = 0).
Proof. vm_compute. repeat split; reflexivity. Qed.

(** ** Sleeping with the namespace open *)

Section Sleeps.

Variable T0 : Z.
Variable touch : nat -> Z.

Lemma loop_sleeps w :
  prefs_started w = false ->
  exists w' evs,
    loop T0 touch w = Ok tt w'
    /\ trace w' = trace w ++ evs
    /\ prefs_started w' = false
    /\ store_open_after false evs = false
    /\ sleeps_while_open false evs
       = if (fullCapacitiveValue w <? smoothed_at touch (touch_reads w))
            && (overflow_protect w <=? 5) && nvs_ok w
         then [EvDelay 1000] else [].
Proof.
  intros Hs. rewrite loop_reads.
  set (v := smoothed_at touch (touch_reads w)).
  set (ws := after_sampling touch T0 50 64 w).
  assert (Hws : prefs_started ws = false) by exact Hs.
  destruct (Z.ltb_spec (fullCapacitiveValue w) v) as [Hgt|Hle]; cbn [andb].
  - destruct (Z.leb_spec (overflow_protect w) 5) as [Ho|Ho]; cbn [andb].
    + rewrite loop_after_reading_pump by (cbn; lia).
      destruct (nvs_ok w) eqn:Hok; unfold after.
      * rewrite runPump_store_opens by (cbn; assumption).
        eexists. eexists. split; [reflexivity|]. cbn.
        split; [rewrite <- !app_assoc; reflexivity|].
        split; [reflexivity|].
        rewrite store_open_after_app, sleeps_while_open_app,
          store_open_after_sample_events, sleeps_closed_sample_events.
        split; reflexivity.
      * rewrite runPump_store_refused by (cbn; assumption).
        eexists. eexists. split; [reflexivity|]. cbn.
        split; [rewrite <- !app_assoc; reflexivity|].
        split; [reflexivity|].
        rewrite store_open_after_app, sleeps_while_open_app,
          store_open_after_sample_events, sleeps_closed_sample_events.
        split; reflexivity.
    + rewrite loop_after_reading_cooldown by (cbn; lia).
      eexists. eexists. split; [reflexivity|]. cbn.
      split; [rewrite <- !app_assoc; reflexivity|].
      split; [exact Hs|].
      rewrite store_open_after_app, sleeps_while_open_app,
        store_open_after_sample_events, sleeps_closed_sample_events.
      split; reflexivity.
  - rewrite loop_after_reading_idle by (cbn; lia).
    eexists. eexists. split; [reflexivity|]. cbn.
    split; [rewrite <- !app_assoc; reflexivity|].
    split; [exact Hs|].
    rewrite store_open_after_app, sleeps_while_open_app,
      store_open_after_sample_events, sleeps_closed_sample_events.
    split; reflexivity.
Qed.

End Sleeps.

(** ** The sensor filter *)

(** C5. For every sample count n >= 1 (a [uint16_t]) and every sequence of
    n raw samples, [getSmoothedTouch] returns the integer-truncated
    arithmetic mean of exactly those n samples, and n identical raw values
    v give exactly v. *)
Theorem getSmoothedTouch_truncated_mean
    (touch : nat -> Z) (pin n d : Z) (w : world) (l : list Z) :
  1 <= n <= UINT16_MAX ->
  raw_samples touch (touch_reads w) (Z.to_nat n) = l ->
  exists w',
    getSmoothedTouch touch pin n d w = Ok (truncated_mean l) w'
    /\ length l = Z.to_nat n
    /\ touch_reads w' = (touch_reads w + Z.to_nat n)%nat
    /\ (forall v, l = repeat v (Z.to_nat n) ->
        getSmoothedTouch touch pin n d w = Ok v w').
Proof.
  intros Hn Hl.
  pose proof (getSmoothedTouch_spec touch pin n d w Hn) as Hrun.
  rewrite Hl in Hrun.
  exists (after_sampling touch pin d (Z.to_nat n) w).
  split; [exact Hrun|].
  split; [rewrite <- Hl; apply raw_samples_length|].
  split; [reflexivity|].
  intros v Hv. rewrite Hrun. f_equal.
  pose proof (raw_samples_bounds touch (touch_reads w) (Z.to_nat n)) as Hall.
  rewrite Hl, Hv in Hall. rewrite Hv.
  destruct (Z.to_nat n) as [|m] eqn:Hm; [lia|].
  cbn [repeat] in Hall. inversion Hall as [|? ? Hv0 _]; subst.
  apply truncated_mean_repeat; lia.
Qed.

Lemma getSmoothedTouch_truncated_mean_witness :
  exists w',
    getSmoothedTouch (steady_touch 50) 4 64 50 (power_up ∅ true true)
    = Ok (truncated_mean (repeat 50 64)) w'
    /\ length (repeat 50 64) = Z.to_nat 64
    /\ touch_reads w' = (0 + Z.to_nat 64)%nat
    /\ (forall v, repeat 50 64 = repeat v (Z.to_nat 64) ->
        getSmoothedTouch (steady_touch 50) 4 64 50 (power_up ∅ true true)
        = Ok v w').
Proof.
  apply (getSmoothedTouch_truncated_mean
           (steady_touch 50) 4 64 50 (power_up ∅ true true) (repeat 50 64)).
  - vm_compute. split; discriminate.
  - vm_compute. reflexivity.
Defined.

(** C10. Under the precondition samples >= 1, [getSmoothedTouch] returns:
    its division has a nonzero divisor, and for 16-bit raw samples and a
    16-bit sample count the 32-bit sum never wraps: after any number of
    samples the accumulator of the loop of lines 41-44 is the exact sum,
    which is at most 65535 * 65535, and the value returned is the exact
    sum divided by the sample count.  The parameter type admits
    samples = 0, and that call divides by zero. *)
Theorem getSmoothedTouch_total_unless_zero_samples
    (touch : nat -> Z) (pin d : Z) (w : world) :
  (forall samples,
      1 <= samples <= UINT16_MAX ->
      returns (getSmoothedTouch touch pin samples d w) = true
      /\ (forall j, (j <= Z.to_nat samples)%nat ->
           0 <= sum_list (raw_samples touch (touch_reads w) j) <= 65535 * 65535
           /\ 65535 * 65535 <= UINT32_MAX
           /\ accumulate 0 (raw_samples touch (touch_reads w) j)
              = sum_list (raw_samples touch (touch_reads w) j)
           /\ sample_loop touch j pin d 0 w
              = Ok (sum_list (raw_samples touch (touch_reads w) j))
                   (after_sampling touch pin d j w))
      /\ getSmoothedTouch touch pin samples d w
         = Ok (sum_list (raw_samples touch (touch_reads w) (Z.to_nat samples))
               / samples)
              (after_sampling touch pin d (Z.to_nat samples) w))
  /\ getSmoothedTouch touch pin 0 d w = DivByZero w.
Proof.
  split.
  - intros samples Hs.
    assert (Hacc : forall j, (j <= Z.to_nat samples)%nat ->
              0 <= sum_list (raw_samples touch (touch_reads w) j) <= 65535 * 65535
              /\ accumulate 0 (raw_samples touch (touch_reads w) j)
                 = sum_list (raw_samples touch (touch_reads w) j)).
    { intros j Hj.
      pose proof (raw_samples_bounds touch (touch_reads w) j) as Hall.
      pose proof (sum_list_bounds _ Hall) as Hsum.
      rewrite raw_samples_length in Hsum.
      unfold UINT16_MAX, UINT32_MAX in *.
      split; [nia|].
      rewrite accumulate_exact; [lia | exact Hall | lia |].
      rewrite raw_samples_length. unfold UINT16_MAX, UINT32_MAX. nia. }
    split; [|split].
    + rewrite getSmoothedTouch_spec by exact Hs. reflexivity.
    + intros j Hj. destruct (Hacc j Hj) as [Hsum Hexact].
      split; [exact Hsum|]. split; [unfold UINT32_MAX; lia|].
      split; [exact Hexact|].
      rewrite sample_loop_spec, Hexact. reflexivity.
    + rewrite getSmoothedTouch_spec by exact Hs. f_equal.
      set (l := raw_samples touch (touch_reads w) (Z.to_nat samples)).
      assert (Hlen : length l = Z.to_nat samples) by apply raw_samples_length.
      assert (Hne : l <> []) by (intros E; rewrite E in Hlen; cbn in Hlen; lia).
      destruct (truncated_mean_div l (raw_samples_bounds _ _ _) Hne) as [Hdiv _].
      rewrite Hdiv, Hlen, Z2Nat.id by lia. reflexivity.
  - destruct w. reflexivity.
Qed.

Lemma getSmoothedTouch_total_unless_zero_samples_witness :
  returns (getSmoothedTouch (steady_touch 65535) 4 64 50 (power_up ∅ true true))
  = true
  /\ accumulate 0 (raw_samples (steady_touch 65535) 0 64)
     = sum_list (raw_samples (steady_touch 65535) 0 64)
  /\ sample_loop (steady_touch 65535) 64 4 50 0 (power_up ∅ true true)
     = Ok 4194240
          (after_sampling (steady_touch 65535) 4 50 64 (power_up ∅ true true))
  /\ getSmoothedTouch (steady_touch 65535) 4 64 50 (power_up ∅ true true)
     = Ok 65535
          (after_sampling (steady_touch 65535) 4 50 64 (power_up ∅ true true)).
Proof.
  destruct (proj1 (getSmoothedTouch_total_unless_zero_samples
                     (steady_touch 65535) 4 50 (power_up ∅ true true)) 64)
    as (Hret & Hsum & Hval).
  - vm_compute. split; discriminate.
  - split; [exact Hret|].
    destruct (Hsum 64%nat) as (_ & _ & Hacc & Hloop); [vm_compute; lia|].
    split; [exact Hacc|]. split; [exact Hloop | exact Hval].
Defined.

(** ** The calibration *)

Section Calibration.

Variable T0 : Z.
Variable touch : nat -> Z.
Variable button : nat -> bool.

Lemma runPump_total d w : runPump d w = Ok tt (after (runPump d) w).
Proof.
  destruct (runPump_frame d w) as (w' & evs & Hrun & _).
  unfold after. rewrite Hrun. reflexivity.
Qed.

Lemma calibration_pumping_high fuel w :
  button (button_reads w) = true ->
  calibration_pumping T0 touch button (S fuel) w = Ok tt (button_sampled button w).
Proof.
  intros Hb. cbn [calibration_pumping]. unfold bind at 1.
  unfold digitalRead, button_sampled. rewrite Hb. reflexivity.
Qed.

Lemma calibration_pumping_low fuel w :
  button (button_reads w) = false ->
  calibration_pumping T0 touch button (S fuel) w
  = calibration_pumping T0 touch button fuel (pump_round T0 touch button w).
Proof.
  intros Hb. cbn [calibration_pumping]. unfold bind at 1.
  unfold digitalRead. fold (button_sampled button w). rewrite Hb.
  cbn [Z.b2z Z.eqb]. unfold bind at 1. rewrite runPump_total.
  unfold bind at 1. unfold Serial_print at 1, modify at 1.
  unfold bind at 1. unfold TOUCH_PIN.
  rewrite getSmoothedTouch_spec by (unfold UINT16_MAX; lia).
  unfold bind at 1. unfold Serial_println at 1, modify at 1.
  unfold bind at 1. unfold delay at 1, modify at 1.
  reflexivity.
Qed.

Lemma pump_round_frame w :
  prefs_started (pump_round T0 touch button w) = false
  /\ nvs_ok (pump_round T0 touch button w) = nvs_ok w
  /\ button_reads (pump_round T0 touch button w) = S (button_reads w)
  /\ actuations (trace (pump_round T0 touch button w)) = S (actuations (trace w))
  /\ (nvs_ok w = false -> prefs_started w = false ->
      nvs (pump_round T0 touch button w) = nvs w
      /\ nvs_writes (trace (pump_round T0 touch button w)) = nvs_writes (trace w)).
Proof.
  unfold pump_round.
  destruct (runPump_frame 1000 (button_sampled button w))
    as (w1 & evs & Hrun & Htr & Ha & _ & _ & _ & _ & _ & _ & _ & Hst & Hok & _
        & _ & Hbut & _ & _).
  split; [|split; [|split; [|split]]].
  - unfold after. rewrite Hrun. cbn. exact Hst.
  - unfold after. rewrite Hrun. cbn. rewrite Hok. reflexivity.
  - unfold after. rewrite Hrun. cbn. rewrite Hbut. reflexivity.
  - unfold after. rewrite Hrun. cbn. rewrite Htr. cbn. count_trace.
  - intros Hno Hs.
    rewrite runPump_store_refused in Hrun by (cbn; assumption).
    unfold after. rewrite runPump_store_refused by (cbn; assumption).
    cbn. split; [reflexivity|]. unfold pump_events_no_store. writes_trace.
Qed.

Lemma calibration_pumping_frame fuel : forall w w',
  calibration_pumping T0 touch button fuel w = Ok tt w' ->
  prefs_started w = false ->
  prefs_started w' = false
  /\ nvs_ok w' = nvs_ok w
  /\ (nvs_ok w = false ->
      nvs w' = nvs w /\ nvs_writes (trace w') = nvs_writes (trace w)).
Proof.
  induction fuel as [|fuel IH]; intros w w' Hrun Hs; [discriminate|].
  destruct (button (button_reads w)) eqn:Hb.
  - rewrite calibration_pumping_high in Hrun by exact Hb.
    injection Hrun as <-. unfold button_sampled. cbn.
    repeat split; try assumption; writes_trace.
  - rewrite calibration_pumping_low in Hrun by exact Hb.
    destruct (pump_round_frame w) as (Hst & Hok & _ & _ & Hkeep).
    destruct (IH _ _ Hrun Hst) as (Hst' & Hok' & Hkeep').
    split; [exact Hst'|]. split; [congruence|].
    intros Hno. destruct (Hkeep Hno Hs) as [E1 E2].
    destruct (Hkeep' ltac:(congruence)) as [E3 E4].
    split; congruence.
Qed.

(** The calibration loop ends at the first HIGH level of the button,
    after one pump actuation per LOW level before it. *)
Lemma calibration_pumping_terminates k : forall w,
  (forall j, (j < k)%nat -> button (button_reads w + j) = false) ->
  button (button_reads w + k) = true ->
  exists w',
    calibration_pumping T0 touch button (S k) w = Ok tt w'
    /\ actuations (trace w') = (actuations (trace w) + k)%nat.
Proof.
  induction k as [|k IH]; intros w Hlow Hhigh.
  - rewrite Nat.add_0_r in Hhigh.
    rewrite calibration_pumping_high by exact Hhigh.
    eexists. split; [reflexivity|]. unfold button_sampled. cbn. count_trace.
  - pose proof (Hlow 0%nat ltac:(lia)) as H0. rewrite Nat.add_0_r in H0.
    rewrite calibration_pumping_low by exact H0.
    destruct (pump_round_frame w) as (_ & _ & Hbut & Hact & _).
    destruct (IH (pump_round T0 touch button w)) as (w' & Hrun & Ha).
    + intros j Hj. rewrite Hbut.
      replace (S (button_reads w) + j)%nat with (button_reads w + S j)%nat by lia.
      apply Hlow. lia.
    + rewrite Hbut.
      replace (S (button_reads w) + k)%nat with (button_reads w + S k)%nat by lia.
      exact Hhigh.
    + exists w'. split; [exact Hrun|]. rewrite Ha, Hact. lia.
Qed.

Lemma calibration_enter_frame w :
  exists w',
    calibration_enter T0 touch w = Ok tt w'
    /\ prefs_started w' = prefs_started w
    /\ nvs_ok w' = nvs_ok w
    /\ nvs w' = nvs w
    /\ button_reads w' = button_reads w
    /\ nvs_writes (trace w') = nvs_writes (trace w)
    /\ actuations (trace w') = actuations (trace w).
Proof.
  destruct w as [o e f pu pc st ro m ok lk tr br t].
  unfold calibration_enter, TOUCH_PIN. cbn.
  rewrite getSmoothedTouch_spec by (unfold UINT16_MAX; lia). cbn.
  eexists. split; [reflexivity|]. cbn.
  split; [reflexivity|]. split; [reflexivity|]. split; [reflexivity|].
  split; [reflexivity|]. split; [writes_trace | count_trace].
Qed.

Lemma calibration_commit_spec p w :
  prefs_started w = false ->
  exists w',
    calibration_commit T0 touch p w = Ok tt w'
    /\ touch_reads w' = (touch_reads w + 64)%nat
    /\ fullCapacitiveValue w' = to_u16 (smoothed_at touch (touch_reads w) + 1)
    /\ totalPumpsSinceCalibration w' = 0
    /\ prefs_started w' = false
    /\ nvs_ok w' = nvs_ok w
    /\ (nvs_ok w = true ->
        nvs w' !! capKey = Some (to_u16 (smoothed_at touch (touch_reads w) + 1))
        /\ nvs w' !! pumpKey = Some 0
        /\ exists pre,
            trace w'
            = pre ++ commit_events (to_u16 (smoothed_at touch (touch_reads w) + 1)))
    /\ (nvs_ok w = false ->
        nvs w' = nvs w /\ nvs_writes (trace w') = nvs_writes (trace w))
    /\ actuations (trace w') = actuations (trace w).
Proof.
  intros Hs. destruct w as [o e f pu pc st ro m ok lk tr br t]. cbn in Hs. subst st.
  unfold calibration_commit, TOUCH_PIN. cbn.
  rewrite getSmoothedTouch_spec by (unfold UINT16_MAX; lia).
  change (Z.to_nat 64) with 64%nat.
  fold (smoothed_at touch tr). cbn. destruct ok; cbn.
  - eexists. split; [reflexivity|]. cbn.
    split; [reflexivity|]. split; [reflexivity|]. split; [reflexivity|].
    split; [reflexivity|]. split; [reflexivity|].
    split; [|split; [discriminate | count_trace]].
    intros _. split; [|split].
    + rewrite lookup_insert_ne by exact keys_distinct. apply lookup_insert_eq.
    + apply lookup_insert_eq.
    + eexists. unfold commit_events. apply snoc_five.
  - eexists. split; [reflexivity|]. cbn.
    split; [reflexivity|]. split; [reflexivity|]. split; [reflexivity|].
    split; [reflexivity|]. split; [reflexivity|]. split; [discriminate|].
    split; [|count_trace].
    intros _. split; [reflexivity|]. writes_trace.
Qed.

Lemma calibration_unfold fuel p :
  calibration T0 touch button fuel p
  = (calibration_enter T0 touch ;;
     calibration_pumping T0 touch button fuel ;;
     calibration_commit T0 touch p).
Proof. reflexivity. Qed.

(** A calibration that completes. *)
Lemma calibration_spec fuel p w w' :
  prefs_started w = false ->
  calibration T0 touch button fuel p w = Ok tt w' ->
  let thr := to_u16 (smoothed_at touch (touch_reads w' - 64) + 1) in
  fullCapacitiveValue w' = thr
  /\ totalPumpsSinceCalibration w' = 0
  /\ prefs_started w' = false
  /\ nvs_ok w' = nvs_ok w
  /\ (64 <= touch_reads w')%nat
  /\ (nvs_ok w = true ->
      nvs w' !! capKey = Some thr
      /\ nvs w' !! pumpKey = Some 0
      /\ exists pre, trace w' = pre ++ commit_events thr)
  /\ (nvs_ok w = false ->
      nvs w' = nvs w /\ nvs_writes (trace w') = nvs_writes (trace w)).
Proof.
  intros Hs Hrun. rewrite calibration_unfold in Hrun.
  apply bind_Ok in Hrun as ([] & w1 & He & Hrun).
  apply bind_Ok in Hrun as ([] & w2 & Hp & Hrun).
  destruct (calibration_enter_frame w)
    as (w1' & He' & Hs1 & Hok1 & Hn1 & _ & Hw1 & _).
  rewrite He in He'. injection He' as <-.
  destruct (calibration_pumping_frame fuel w1 w2 Hp ltac:(congruence))
    as (Hs2 & Hok2 & Hkeep2).
  destruct (calibration_commit_spec p w2 Hs2)
    as (w3 & Hc & Htouch & Hfull & Hpc & Hs3 & Hok3 & Hyes & Hno & _).
  rewrite Hc in Hrun. injection Hrun as <-.
  cbv zeta. rewrite Htouch, Nat.add_sub.
  split; [exact Hfull|]. split; [exact Hpc|]. split; [exact Hs3|].
  split; [congruence|]. split; [lia|]. split.
  - intros Hok. apply Hyes. congruence.
  - intros Hok. destruct (Hno ltac:(congruence)) as [E1 E2].
    destruct (Hkeep2 ltac:(congruence)) as [E3 E4].
    split; congruence.
Qed.

(** A calibration completes as soon as the button is read HIGH again;
    [S k] button tests are enough when the first [k] read LOW. *)
Lemma calibration_completes k p w :
  prefs_started w = false ->
  (forall j, (j < k)%nat -> button (button_reads w + j) = false) ->
  button (button_reads w + k) = true ->
  exists w',
    calibration T0 touch button (S k) p w = Ok tt w'
    /\ actuations (trace w') = (actuations (trace w) + k)%nat.
Proof.
  intros Hs Hlow Hhigh. rewrite calibration_unfold.
  destruct (calibration_enter_frame w) as (w1 & He & Hs1 & _ & _ & Hb1 & _ & Ha1).
  destruct (calibration_pumping_terminates k w1) as (w2 & Hp & Ha2).
  { intros j Hj. rewrite Hb1. apply Hlow. exact Hj. }
  { rewrite Hb1. exact Hhigh. }
  destruct (calibration_pumping_frame (S k) w1 w2 Hp ltac:(congruence))
    as (Hs2 & _).
  destruct (calibration_commit_spec p w2 Hs2)
    as (w3 & Hc & _ & _ & _ & _ & _ & _ & _ & Ha3).
  exists w3. split; [|lia].
  unfold bind at 1. rewrite He. unfold bind at 1. rewrite Hp. exact Hc.
Qed.

End Calibration.

(** ** [setup] from power-up *)

Lemma blinkLED_spec times onTime offTime : forall w,
  blinkLED times onTime offTime w
  = Ok tt (add_events (blink_events times onTime offTime) w).
Proof.
  induction times as [|times IH]; intros w.
  - destruct w. cbn. rewrite app_nil_r. reflexivity.
  - cbn [blinkLED blink_events]. unfold bind at 1. unfold digitalWrite at 1, modify at 1.
    unfold bind at 1. unfold delay at 1, modify at 1.
    unfold bind at 1. unfold digitalWrite at 1, modify at 1.
    unfold bind at 1. unfold delay at 1, modify at 1.
    rewrite IH. destruct w. cbn. same_world.
Qed.

Lemma setup_finish w :
  prefs_started w = false ->
  setup_end w = Ok tt (add_events finish_events w).
Proof.
  intros Hs. unfold setup_end, bind. rewrite blinkLED_spec.
  destruct w. cbn in Hs. subst. unfold finish_events. cbn. same_world.
Qed.

Section Boot.

Variable T0 : Z.
Variable touch : nat -> Z.
Variable button : nat -> bool.

(** Runs [setup] from power-up to the test of the button, by cases on
    the flash, the PWM channel and the two entries. *)
Ltac boot m ok lk Hb :=
  unfold booted; cbv zeta; unfold setup, setup_board, setup_load, power_up;
  let c := fresh "c" in
  let V := fresh "V" in
  let Hpump := fresh "Hpump" in
  let Hcap := fresh "Hcap" in
  let HV0 := fresh "HV0" in
  destruct (m !! pumpKey) as [c|] eqn:Hpump;
  destruct (m !! capKey) as [V|] eqn:Hcap;
  try destruct (V =? 0) eqn:HV0;
  destruct ok; destruct lk;
  repeat (progress (cbn; rewrite ?Hpump, ?Hcap, ?HV0, ?Hb, ?lookup_insert_eq));
  eexists; (split; [reflexivity|]); cbn; rewrite ?HV0;
  repeat split; reflexivity.

(** A boot with the button up: no calibration. *)
Lemma setup_boot_plain fuel (m : gmap string Z) (ok lk : bool) :
  button 0%nat = false ->
  exists w1,
    setup T0 touch button fuel (power_up m ok lk) = setup_end w1
    /\ booted m ok lk w1.
Proof. intros Hb. boot m ok lk Hb. Qed.

(** A boot with the button down: the calibration runs on the booted
    board. *)
Lemma setup_boot_calibrating fuel (m : gmap string Z) (ok lk : bool) :
  button 0%nat = true ->
  exists w1,
    setup T0 touch button fuel (power_up m ok lk)
    = (calibration T0 touch button fuel
         (if ok then default 0 (m !! capKey) else 0) ;;
       setup_end) w1
    /\ booted m ok lk w1.
Proof. intros Hb. boot m ok lk Hb. Qed.

Lemma setup_plain fuel (m : gmap string Z) (ok lk : bool) :
  button 0%nat = false ->
  exists w1,
    setup T0 touch button fuel (power_up m ok lk)
    = Ok tt (add_events finish_events w1)
    /\ booted m ok lk w1.
Proof.
  intros Hb. destruct (setup_boot_plain fuel m ok lk Hb) as (w1 & Hrun & Hboot).
  exists w1. split; [|exact Hboot].
  rewrite Hrun. apply setup_finish. apply Hboot.
Qed.

(** [setup] with a calibration completes exactly when the calibration
    does. *)
Lemma setup_calibrating fuel (m : gmap string Z) (ok lk : bool) w' :
  button 0%nat = true ->
  setup T0 touch button fuel (power_up m ok lk) = Ok tt w' ->
  exists w1 w2,
    booted m ok lk w1
    /\ calibration T0 touch button fuel
         (if ok then default 0 (m !! capKey) else 0) w1 = Ok tt w2
    /\ w' = add_events finish_events w2.
Proof.
  intros Hb Hrun.
  destruct (setup_boot_calibrating fuel m ok lk Hb) as (w1 & Hsetup & Hboot).
  rewrite Hsetup in Hrun. clear Hsetup.
  apply bind_Ok in Hrun as ([] & w2 & Hcal & Hrun).
  destruct (calibration_spec T0 touch button fuel _ w1 w2 ltac:(apply Hboot) Hcal)
    as (_ & _ & Hs2 & _).
  rewrite setup_finish in Hrun by exact Hs2. injection Hrun as <-.
  exists w1, w2. split; [exact Hboot | split; [exact Hcal | reflexivity]].
Qed.

(** [setup] with a calibration completes when the button is read HIGH
    again. *)
Lemma setup_calibration_completes k (m : gmap string Z) (ok lk : bool) :
  button 0%nat = true ->
  (forall j, (j < k)%nat -> button (1 + j)%nat = false) ->
  button (1 + k)%nat = true ->
  exists w',
    setup T0 touch button (S k) (power_up m ok lk) = Ok tt w'
    /\ actuations (trace w') = k.
Proof.
  intros Hb Hlow Hhigh.
  destruct (setup_boot_calibrating (S k) m ok lk Hb) as (w1 & Hsetup & Hboot).
  destruct Hboot as (Hs1 & _ & _ & Hb1 & _ & _ & _ & _ & _ & _ & _ & _ & Ha1 & _).
  destruct (calibration_completes T0 touch button k
              (if ok then default 0 (m !! capKey) else 0) w1 Hs1)
    as (w2 & Hcal & Ha2).
  { intros j Hj. rewrite Hb1. apply Hlow. exact Hj. }
  { rewrite Hb1. exact Hhigh. }
  destruct (calibration_spec T0 touch button (S k) _ w1 w2 Hs1 Hcal)
    as (_ & _ & Hs2 & _).
  exists (add_events finish_events w2). split.
  - rewrite Hsetup. unfold bind at 1. rewrite Hcal. apply setup_finish. exact Hs2.
  - cbn [add_events trace]. rewrite Ha1 in Ha2. count_trace.
Qed.

End Boot.

Lemma iterations_keep_threshold T0 touch n : forall w,
  fullCapacitiveValue (iterations T0 touch n w) = fullCapacitiveValue w
  /\ nvs (iterations T0 touch n w) !! capKey = nvs w !! capKey.
Proof.
  induction n as [|n IH]; intros w; [split; reflexivity|].
  rewrite iterations_S. destruct (IH w) as [Hf Hc].
  destruct (loop_step T0 touch (iterations T0 touch n w))
    as (w' & Hrun & _ & _ & Hf' & Hc' & _).
  unfold after. rewrite Hrun. split; congruence.
Qed.

(** ** The threshold at the end of initialisation *)

(** C3 (as the code has it). On a board whose flash opens, and with no
    calibration requested: if the stored threshold entry is absent or 0,
    [setup] ends with the default 45 in use and persisted; if it holds a
    value V different from 0, [setup] adopts V reduced to 16 bits, which
    is exactly V when 1 <= V <= 65535, and writes nothing to flash.
    The iterations of [loop] that follow change neither the threshold in
    use nor the stored entry. *)
Theorem setup_threshold_adoption
    (T0 : Z) (touch : nat -> Z) (button : nat -> bool) (fuel : nat)
    (m : gmap string Z) (lk : bool) :
  button 0%nat = false ->
  exists w',
    setup T0 touch button fuel (power_up m true lk) = Ok tt w'
    /\ (m !! capKey = None \/ m !! capKey = Some 0 ->
        fullCapacitiveValue w' = 45 /\ nvs w' !! capKey = Some 45)
    /\ (forall V, m !! capKey = Some V -> V <> 0 ->
        fullCapacitiveValue w' = to_u16 V
        /\ (1 <= V <= UINT16_MAX -> fullCapacitiveValue w' = V)
        /\ nvs w' !! capKey = Some V
        /\ nvs_writes (trace w') = [])
    /\ (forall n,
        fullCapacitiveValue (iterations T0 touch n w') = fullCapacitiveValue w'
        /\ nvs (iterations T0 touch n w') !! capKey = nvs w' !! capKey).
Proof.
  intros Hb.
  destruct (setup_plain T0 touch button fuel m true lk Hb) as (w1 & Hrun & Hboot).
  destruct Hboot as (_ & _ & _ & _ & _ & _ & _ & Hfull & Hnvs & Hwr & _).
  cbn [andb] in Hnvs, Hwr.
  exists (add_events finish_events w1). split; [exact Hrun|].
  split; [|split].
  - intros Hunset. cbn [add_events fullCapacitiveValue nvs].
    assert (default 0 (m !! capKey) = 0) as E
      by (destruct Hunset as [-> | ->]; reflexivity).
    rewrite E in Hfull, Hnvs. cbn [Z.eqb] in Hfull, Hnvs.
    rewrite Hfull, Hnvs. split; [reflexivity | apply lookup_insert_eq].
  - intros V HV Hne. cbn [add_events fullCapacitiveValue nvs trace].
    rewrite HV in Hfull, Hnvs, Hwr.
    change (default 0 (Some V)) with V in Hfull, Hnvs, Hwr.
    destruct (Z.eqb_spec V 0) as [|_]; [contradiction|].
    rewrite Hfull, Hnvs. split; [reflexivity|].
    split; [intros Hr; apply to_u16_small; lia|].
    split; [exact HV|].
    rewrite nvs_writes_app, Hwr. reflexivity.
  - intros n. apply iterations_keep_threshold.
Qed.

Lemma setup_threshold_adoption_witness :
  exists w',
    setup 4 (steady_touch 10) button_released 0
          (power_up {[ capKey := 60 ]} true true) = Ok tt w'
    /\ fullCapacitiveValue w' = 60
    /\ nvs w' !! capKey = Some 60
    /\ nvs_writes (trace w') = [].
Proof.
  destruct (setup_threshold_adoption 4 (steady_touch 10) button_released 0
              {[ capKey := 60 ]} true eq_refl)
    as (w' & Hrun & _ & Hset & _).
  destruct (Hset 60) as (_ & Hfull & Hnvs & Hwr).
  - vm_compute. reflexivity.
  - discriminate.
  - exists w'. split; [exact Hrun|].
    split; [apply Hfull; vm_compute; split; discriminate|].
    split; assumption.
Defined.

(** C3 fails as stated.  On a board whose flash does not open, a stored
    threshold of 60 is not adopted: [setup] ends with the default 45 in
    use and 60 still stored; and with no entry stored, the default 45 is
    in use at the end of [setup] but not persisted.  On a board whose
    flash opens and stores no entry, a calibration requested at the same
    boot ends [setup] with the calibrated threshold (here 51), not the
    default, in use and persisted. *)
Lemma setup_threshold_not_adopted_or_not_persisted :
  let w := power_up {[ capKey := 60 ]} false true in
  let w' := after (setup 4 (steady_touch 10) button_released 0) w in
  let u := power_up ∅ false true in
  let u' := after (setup 4 (steady_touch 10) button_released 0) u in
  let c := power_up ∅ true true in
  let c' := after (setup 4 (steady_touch 50) calibration_button 3) c in
  (returns (setup 4 (steady_touch 10) button_released 0 w) = true
   /\ nvs w !! capKey = Some 60
   /\ fullCapacitiveValue w' = 45
   /\ nvs w' !! capKey = Some 60)
  /\ (returns (setup 4 (steady_touch 10) button_released 0 u) = true
      /\ nvs u !! capKey = None
      /\ fullCapacitiveValue u' = 45
      /\ nvs u' !! capKey = None)
  /\ (returns (setup 4 (steady_touch 50) calibration_button 3 c) = true
      /\ nvs c !! capKey = None
      /\ fullCapacitiveValue c' = 51
      /\ nvs c' !! capKey = Some 51).
Proof. vm_compute. repeat split; reflexivity. Qed.

(** ** A board whose flash does not open *)

Section NoFlash.

Variable T0 : Z.
Variable touch : nat -> Z.

(** An iteration of [loop] on a board whose flash does not open leaves
    the flash as it was. *)
Lemma loop_without_flash w :
  prefs_started w = false -> nvs_ok w = false ->
  nvs (after (loop T0 touch) w) = nvs w
  /\ nvs_writes (trace (after (loop T0 touch) w)) = nvs_writes (trace w).
Proof.
  intros Hs Hok. unfold after at 1 2. rewrite loop_reads.
  destruct (Z_le_gt_dec (smoothed_at touch (touch_reads w)) (fullCapacitiveValue w))
    as [Hle|Hgt].
  - rewrite loop_after_reading_idle by (cbn; lia).
    cbn. unfold stats_events. split; [reflexivity | writes_trace].
  - destruct (Z_le_gt_dec (overflow_protect w) 5) as [Ho|Ho].
    + rewrite loop_after_reading_pump by (cbn; lia).
      unfold after. rewrite runPump_store_refused by (cbn; assumption).
      cbn. unfold stats_events, pump_events_no_store.
      split; [reflexivity | writes_trace].
    + rewrite loop_after_reading_cooldown by (cbn; lia).
      cbn. unfold stats_events. split; [reflexivity | writes_trace].
Qed.

(** An iteration that pumps while the namespace opens persists the
    counter. *)
Lemma loop_pump_persists w :
  prefs_started w = false -> nvs_ok w = true ->
  fullCapacitiveValue w < smoothed_at touch (touch_reads w) ->
  overflow_protect w <= 5 ->
  nvs (after (loop T0 touch) w) !! pumpKey
  = Some (totalPumpsSinceCalibration (after (loop T0 touch) w)).
Proof.
  intros Hs Hok Hv Ho. unfold after at 1 2. rewrite loop_reads.
  rewrite loop_after_reading_pump by (cbn; lia).
  unfold after. rewrite runPump_store_opens by (cbn; assumption).
  cbn. apply lookup_insert_eq.
Qed.

Lemma loop_pump_persists_once_open w :
  prefs_started w = false ->
  fullCapacitiveValue w < smoothed_at touch (touch_reads w) ->
  overflow_protect w <= 5 ->
  nvs (after (loop T0 touch) (set_nvs_ok true w)) !! pumpKey
  = Some (totalPumpsSinceCalibration (after (loop T0 touch) (set_nvs_ok true w))).
Proof.
  intros Hs Hv Ho. apply loop_pump_persists; destruct w; cbn in *; auto.
Qed.

(** Every actuation of a run of [loop] calls [prefs.begin] once, and on a
    board whose flash does not open the run leaves the flash as it was. *)
Lemma iterations_without_flash n w :
  prefs_started w = false -> nvs_ok w = false ->
  prefs_started (iterations T0 touch n w) = false
  /\ nvs_ok (iterations T0 touch n w) = false
  /\ nvs (iterations T0 touch n w) = nvs w
  /\ nvs_writes (trace (iterations T0 touch n w)) = nvs_writes (trace w)
  /\ (begin_calls (trace (iterations T0 touch n w)) + actuations (trace w)
      = begin_calls (trace w) + actuations (trace (iterations T0 touch n w)))%nat.
Proof.
  intros Hs Hok. induction n as [|n IH].
  - change (iterations T0 touch 0 w) with w. repeat split; try assumption.
  - destruct IH as (Hs' & Hok' & Hnvs & Hwr & Hbeg). rewrite iterations_S.
    destruct (loop_without_flash (iterations T0 touch n w) Hs' Hok') as [E1 E2].
    rewrite E1, E2, Hnvs, Hwr.
    destruct (loop_step T0 touch (iterations T0 touch n w))
      as (w' & Hrun & _ & _ & _ & _ & Hok1 & Hs1 & Hidle & Hcool & Hpump).
    assert (Ha : after (loop T0 touch) (iterations T0 touch n w) = w')
      by (unfold after; rewrite Hrun; reflexivity).
    rewrite Ha. clear Ha Hrun E1 E2.
    split; [exact (Hs1 Hs')|]. split; [congruence|].
    split; [reflexivity|]. split; [reflexivity|].
    destruct (Z_le_gt_dec (smoothed_at touch (touch_reads (iterations T0 touch n w)))
                (fullCapacitiveValue (iterations T0 touch n w))) as [Hle|Hgt].
    + destruct (Hidle Hle) as (_ & A & _ & B & _). lia.
    + destruct (Z_le_gt_dec (overflow_protect (iterations T0 touch n w)) 5)
        as [Ho|Ho].
      * destruct (Hpump ltac:(lia) Ho) as (_ & A & _ & B & _). lia.
      * destruct (Hcool ltac:(lia) ltac:(lia)) as (_ & A & _ & B & _). lia.
Qed.

End NoFlash.

(** [setup] on a board whose flash does not open ends with the namespace
    closed and the flash as it was. *)
Lemma setup_ends_without_flash
    (T0 : Z) (touch : nat -> Z) (button : nat -> bool) (fuel : nat)
    (m : gmap string Z) (lk : bool) (w' : world) :
  setup T0 touch button fuel (power_up m false lk) = Ok tt w' ->
  prefs_started w' = false /\ nvs_ok w' = false
  /\ nvs w' = m /\ nvs_writes (trace w') = [].
Proof.
  intros Hrun. destruct (button 0%nat) eqn:Hb.
  - destruct (setup_calibrating T0 touch button fuel m false lk w' Hb Hrun)
      as (w1 & w2 & Hboot & Hcal & ->).
    destruct Hboot as (Hs1 & Hok1 & _ & _ & _ & _ & _ & _ & Hnvs & Hwr & _).
    cbn [andb] in Hnvs, Hwr.
    destruct (calibration_spec T0 touch button fuel _ w1 w2 Hs1 Hcal)
      as (_ & _ & Hs2 & Hok2 & _ & _ & Hno).
    destruct (Hno Hok1) as [E1 E2].
    cbn [add_events nvs trace prefs_started nvs_ok]. rewrite nvs_writes_app.
    split; [exact Hs2|]. split; [congruence|].
    split; [congruence|]. rewrite E2, Hwr. reflexivity.
  - destruct (setup_plain T0 touch button fuel m false lk Hb)
      as (w1 & Hrun' & Hboot).
    rewrite Hrun' in Hrun. injection Hrun as <-.
    destruct Hboot as (Hs1 & Hok1 & _ & _ & _ & _ & _ & _ & Hnvs & Hwr & _).
    cbn [andb] in Hnvs, Hwr.
    cbn [add_events nvs trace prefs_started nvs_ok]. rewrite nvs_writes_app.
    split; [exact Hs1|]. split; [exact Hok1|].
    split; [exact Hnvs|]. rewrite Hwr. reflexivity.
Qed.




(** ** What a calibration commits *)

Lemma smoothed_at_range touch k : 0 <= smoothed_at touch k <= UINT16_MAX.
Proof.
  unfold smoothed_at.
  apply truncated_mean_div; [apply raw_samples_bounds|].
  intros E. apply (f_equal (@length Z)) in E.
  rewrite raw_samples_length in E. discriminate.
Qed.

(** C2 (as the code has it). On a board whose flash opens, whatever the
    entries stored before, a calibration run completes once the button is
    read HIGH again, and a calibration run that completes leaves the pump
    counter at 0 in memory and in flash, persists the threshold it puts in
    use, and that threshold is the final smoothed reading plus 1 for every
    final reading up to 65534; both writes are made one after the other
    between a single successful [prefs.begin] and its [prefs.end].  The
    final smoothed reading [r] is the mean of the last 64 samples that
    [setup] takes. *)
Theorem calibration_commits
    (T0 : Z) (touch : nat -> Z) (button : nat -> bool)
    (m : gmap string Z) (lk : bool) :
  button 0%nat = true ->
  (forall k,
      (forall j, (j < k)%nat -> button (1 + j)%nat = false) ->
      button (1 + k)%nat = true ->
      exists w', setup T0 touch button (S k) (power_up m true lk) = Ok tt w')
  /\ (forall fuel w',
      setup T0 touch button fuel (power_up m true lk) = Ok tt w' ->
      let r := smoothed_at touch (touch_reads w' - 64) in
      0 <= r <= UINT16_MAX
      /\ totalPumpsSinceCalibration w' = 0
      /\ nvs w' !! pumpKey = Some 0
      /\ nvs w' !! capKey = Some (fullCapacitiveValue w')
      /\ (r <= 65534 ->
          fullCapacitiveValue w' = r + 1 /\ nvs w' !! capKey = Some (r + 1))
      /\ exists pre,
           trace w'
           = pre ++ commit_events (fullCapacitiveValue w') ++ finish_events).
Proof.
  intros Hb. split.
  - intros k Hlow Hhigh.
    destruct (setup_calibration_completes T0 touch button k m true lk Hb Hlow Hhigh)
      as (w' & Hrun & _).
    exists w'. exact Hrun.
  - intros fuel w' Hrun r.
    destruct (setup_calibrating T0 touch button fuel m true lk w' Hb Hrun)
      as (w1 & w2 & Hboot & Hcal & ->).
    destruct Hboot as (Hs1 & Hok1 & _).
    destruct (calibration_spec T0 touch button fuel _ w1 w2 Hs1 Hcal)
      as (Hfull & Hpc & _ & _ & _ & Hyes & _).
    destruct (Hyes Hok1) as (Hcap & Hpump & pre & Htr).
    pose proof (smoothed_at_range touch (touch_reads w2 - 64)) as Hr.
    subst r. cbn [add_events touch_reads totalPumpsSinceCalibration nvs
                  fullCapacitiveValue trace].
    split; [exact Hr|]. split; [exact Hpc|]. split; [exact Hpump|].
    split; [rewrite Hfull; exact Hcap|].
    split.
    + intros Hle.
      assert (E : to_u16 (smoothed_at touch (touch_reads w2 - 64) + 1)
                  = smoothed_at touch (touch_reads w2 - 64) + 1)
        by (apply to_u16_small; unfold UINT16_MAX in *; lia).
      rewrite Hfull, Hcap, E. split; reflexivity.
    + exists pre. rewrite Htr, Hfull, <- app_assoc. reflexivity.
Qed.

(** The same on a board that stored 45 and 7 before, with a sensor that
    reads 30 and two rounds of pumping. *)
Lemma calibration_commits_witness :
  exists w',
    setup 4 (steady_touch 30) calibration_button 3
          (power_up {[ capKey := 45; pumpKey := 7 ]} true true) = Ok tt w'
    /\ smoothed_at (steady_touch 30) (touch_reads w' - 64) = 30
    /\ totalPumpsSinceCalibration w' = 0
    /\ nvs w' !! pumpKey = Some 0
    /\ fullCapacitiveValue w' = 31
    /\ nvs w' !! capKey = Some 31.
Proof.
  destruct (calibration_commits 4 (steady_touch 30) calibration_button
              {[ capKey := 45; pumpKey := 7 ]} true eq_refl)
    as (Hcompletes & Hcommits).
  destruct (Hcompletes 2%nat) as (w' & Hrun).
  - intros j Hj. destruct j as [|[|j]]; [reflexivity | reflexivity | lia].
  - reflexivity.
  - destruct (Hcommits 3%nat w' Hrun) as (_ & Hpc & Hpump & _ & Hcap & _).
    assert (Hr : smoothed_at (steady_touch 30) (touch_reads w' - 64) = 30)
      by (rewrite smoothed_at_steady; vm_compute; reflexivity).
    exists w'. split; [exact Hrun|]. split; [exact Hr|]. split; [exact Hpc|].
    split; [exact Hpump|].
    destruct Hcap as [Hfull Hnvs]; [rewrite Hr; lia|].
    rewrite Hr in Hfull, Hnvs. split; assumption.
Defined.

(** C2 fails as stated in two places.  On a board whose flash does not
    open, a completed calibration leaves the entries stored before (45 and
    7) as they were.  On a board whose flash opens, a final smoothed
    reading of 65535 persists the threshold 0, not 65536. *)
Lemma calibration_not_persisted_or_wrapping :
  (let w := power_up {[ capKey := 45; pumpKey := 7 ]} false true in
   let w' := after (setup 4 (steady_touch 30) button_held 1) w in
   setup 4 (steady_touch 30) button_held 1 w = Ok tt w'
   /\ smoothed_at (steady_touch 30) (touch_reads w' - 64) = 30
   /\ nvs w' !! capKey = Some 45
   /\ nvs w' !! pumpKey = Some 7)
  /\ (let w := power_up {[ capKey := 45; pumpKey := 7 ]} true true in
      let w' := after (setup 4 (steady_touch 65535) button_held 1) w in
      setup 4 (steady_touch 65535) button_held 1 w = Ok tt w'
      /\ smoothed_at (steady_touch 65535) (touch_reads w' - 64) = 65535
      /\ nvs w' !! capKey = Some 0
      /\ nvs w' !! pumpKey = Some 0).
Proof. vm_compute. repeat split; reflexivity. Qed.

(** ** The sign of the threshold in use *)

(** Where the threshold in use is positive: it is 45 at power-up; after a
    [setup] without calibration it is greater than 0 whenever the flash
    does not open or the stored entry is absent, 0, or between 1 and
    65535; after a [setup] whose calibration ends on a smoothed reading r
    of at most 65534 it is r + 1, greater than 0; [runPump] and [loop]
    never change it. *)
Theorem threshold_positive
    (T0 : Z) (touch : nat -> Z) (button : nat -> bool) (fuel : nat)
    (m : gmap string Z) (ok lk : bool) :
  fullCapacitiveValue (power_up m ok lk) = 45
  /\ (button 0%nat = false ->
      exists w',
        setup T0 touch button fuel (power_up m ok lk) = Ok tt w'
        /\ (ok = false \/ m !! capKey = None \/ m !! capKey = Some 0
            \/ (exists V, m !! capKey = Some V /\ 1 <= V <= UINT16_MAX) ->
            0 < fullCapacitiveValue w'))
  /\ (button 0%nat = true ->
      forall w',
        setup T0 touch button fuel (power_up m ok lk) = Ok tt w' ->
        smoothed_at touch (touch_reads w' - 64) <= 65534 ->
        fullCapacitiveValue w' = smoothed_at touch (touch_reads w' - 64) + 1
        /\ 0 < fullCapacitiveValue w')
  /\ (forall d w,
        fullCapacitiveValue (after (runPump d) w) = fullCapacitiveValue w
        /\ fullCapacitiveValue (after (loop T0 touch) w) = fullCapacitiveValue w).
Proof.
  split; [reflexivity|]. split; [|split].
  - intros Hb.
    destruct (setup_plain T0 touch button fuel m ok lk Hb) as (w1 & Hrun & Hboot).
    destruct Hboot as (_ & _ & _ & _ & _ & _ & _ & Hfull & _).
    exists (add_events finish_events w1). split; [exact Hrun|].
    cbn [add_events fullCapacitiveValue]. rewrite Hfull.
    intros [-> | [Hnone | [Hzero | (V & HV & Hrange)]]].
    + reflexivity.
    + rewrite Hnone. destruct ok; reflexivity.
    + rewrite Hzero. destruct ok; reflexivity.
    + rewrite HV. destruct ok; [|reflexivity].
      change (default 0 (Some V)) with V.
      destruct (Z.eqb_spec V 0); [reflexivity|].
      rewrite to_u16_small by lia. lia.
  - intros Hb w' Hrun Hle.
    destruct (setup_calibrating T0 touch button fuel m ok lk w' Hb Hrun)
      as (w1 & w2 & Hboot & Hcal & ->).
    destruct Hboot as (Hs1 & _).
    destruct (calibration_spec T0 touch button fuel _ w1 w2 Hs1 Hcal)
      as (Hfull & _).
    cbn [add_events touch_reads fullCapacitiveValue] in *.
    pose proof (smoothed_at_range touch (touch_reads w2 - 64)) as Hr.
    rewrite Hfull, to_u16_small by (unfold UINT16_MAX in *; lia).
    split; [reflexivity | lia].
  - intros d w. split.
    + destruct (runPump_frame d w)
        as (w' & evs & Hrun & _ & _ & _ & _ & _ & _ & _ & Hfull & _).
      unfold after. rewrite Hrun. exact Hfull.
    + destruct (loop_step T0 touch w) as (w' & Hrun & _ & _ & Hfull & _).
      unfold after. rewrite Hrun. exact Hfull.
Qed.

Lemma threshold_positive_witness :
  (exists w',
      setup 4 (steady_touch 10) button_released 0
            (power_up {[ capKey := 60 ]} true true) = Ok tt w'
      /\ 0 < fullCapacitiveValue w')
  /\ (let w' := after (setup 4 (steady_touch 30) calibration_button 3)
                      (power_up ∅ true true) in
      fullCapacitiveValue w' = 30 + 1 /\ 0 < fullCapacitiveValue w').
Proof.
  split.
  - destruct (threshold_positive 4 (steady_touch 10) button_released 0
                {[ capKey := 60 ]} true true)
      as (_ & Hplain & _).
    destruct (Hplain eq_refl) as (w' & Hrun & Hpos).
    exists w'. split; [exact Hrun|]. apply Hpos.
    right. right. right. exists 60.
    split; [vm_compute; reflexivity | vm_compute; split; discriminate].
  - intros w'.
    destruct (threshold_positive 4 (steady_touch 30) calibration_button 3
                ∅ true true)
      as (_ & _ & Hcal & _).
    assert (Hr : smoothed_at (steady_touch 30) (touch_reads w' - 64) = 30)
      by (rewrite smoothed_at_steady; vm_compute; reflexivity).
    destruct (Hcal eq_refl w') as (Hfull & Hpos).
    + vm_compute. reflexivity.
    + rewrite Hr. lia.
    + rewrite Hr in Hfull. split; assumption.
Defined.

(** C6. The threshold in use is meant to stay greater than 0, 0 being the
    "unset" sentinel of the stored entry.  The code breaks this: on a
    sensor whose final smoothed reading is 65535, the calibration computes
    65535 + 1 in 16 bits and [setup] ends with the threshold 0 in use and
    in flash; the first iteration of [loop] then runs against the
    threshold 0. *)
Lemma threshold_zero_after_calibration :
  let w := power_up ∅ true true in
  let w' := after (setup 4 (steady_touch 65535) button_held 1) w in
  setup 4 (steady_touch 65535) button_held 1 w = Ok tt w'
  /\ smoothed_at (steady_touch 65535) (touch_reads w' - 64) = 65535
  /\ fullCapacitiveValue w' = 0
  /\ nvs w' !! capKey = Some 0
  /\ fullCapacitiveValue (after (loop 4 (steady_touch 65535)) w') = 0.
Proof. vm_compute. repeat split; reflexivity. Qed.

(** ** Sleeps and the open namespace *)

(** C8 (as the code has it). A pump actuation opens the namespace before
    it switches the pump on and closes it after the counter is written:
    the pump-hold delay elapses with the namespace open, and it is the
    only sleep of the actuation.  An iteration of [loop] that starts with
    the namespace closed ends with it closed, and none of its other sleeps
    (the sampling pauses, the 30 s cool-down, the 2 s pause) elapses with
    the namespace open.  A [setup] without calibration sleeps once with
    the namespace open, the 1000 ms that follow its first [prefs.begin],
    and ends with the namespace closed. *)
Theorem store_open_during_pump_hold
    (T0 : Z) (touch : nat -> Z) (button : nat -> bool) (d : Z) (w : world) :
  (prefs_started w = false -> nvs_ok w = true ->
   exists w',
     runPump d w = Ok tt w'
     /\ trace w' = trace w ++ pump_events d (totalPumpsSinceCalibration w')
     /\ sleeps_while_open false (pump_events d (totalPumpsSinceCalibration w'))
        = [EvDelay d]
     /\ prefs_started w' = false)
  /\ (prefs_started w = false ->
      exists w' evs,
        loop T0 touch w = Ok tt w'
        /\ trace w' = trace w ++ evs
        /\ prefs_started w' = false
        /\ store_open_after false evs = false
        /\ sleeps_while_open false evs
           = if (fullCapacitiveValue w <? smoothed_at touch (touch_reads w))
                && (overflow_protect w <=? 5) && nvs_ok w
             then [EvDelay 1000] else [])
  /\ (button 0%nat = false ->
      forall fuel (m : gmap string Z) (ok lk : bool),
      exists w',
        setup T0 touch button fuel (power_up m ok lk) = Ok tt w'
        /\ prefs_started w' = false
        /\ store_open_after false (trace w') = false
        /\ sleeps_while_open false (trace w')
           = if ok then [EvDelay 1000] else []).
Proof.
  split; [|split].
  - intros Hs Hok. rewrite (runPump_store_opens d w Hs Hok).
    eexists. split; [reflexivity|]. cbn. repeat split; reflexivity.
  - apply loop_sleeps.
  - intros Hb fuel m ok lk.
    destruct (setup_plain T0 touch button fuel m ok lk Hb) as (w1 & Hrun & Hboot).
    destruct Hboot as (Hs1 & _ & _ & _ & _ & _ & _ & _ & _ & _ & _ & _ & _ & _
                       & Hsl & Hop).
    exists (add_events finish_events w1). split; [exact Hrun|].
    cbn [add_events prefs_started trace].
    rewrite store_open_after_app, sleeps_while_open_app, Hop, Hsl.
    split; [exact Hs1|]. split; [reflexivity|].
    cbn. apply app_nil_r.
Qed.

Lemma store_open_during_pump_hold_witness :
  let w := power_up ∅ true true in
  (exists w',
      runPump 1000 w = Ok tt w'
      /\ trace w' = trace w ++ pump_events 1000 (totalPumpsSinceCalibration w')
      /\ sleeps_while_open false (pump_events 1000 (totalPumpsSinceCalibration w'))
         = [EvDelay 1000]
      /\ prefs_started w' = false)
  /\ (exists w' evs,
       loop 4 (steady_touch 50) w = Ok tt w'
       /\ trace w' = trace w ++ evs
       /\ sleeps_while_open false evs = [EvDelay 1000])
  /\ (exists w',
       setup 4 (steady_touch 50) button_released 0 w = Ok tt w'
       /\ sleeps_while_open false (trace w') = [EvDelay 1000]).
Proof.
  intros w.
  destruct (store_open_during_pump_hold 4 (steady_touch 50) button_released 1000 w)
    as (Hpump & Hloop & Hsetup).
  split; [exact (Hpump eq_refl eq_refl)|]. split.
  - destruct (Hloop eq_refl) as (w' & evs & Hrun & Htr & _ & _ & Hsl).
    exists w', evs. repeat split; assumption.
  - destruct (Hsetup eq_refl 0%nat ∅ true true) as (w' & Hrun & _ & _ & Hsl).
    exists w'. split; assumption.
Defined.

(** C8 fails as stated: on a board with a working flash, the 1000 ms
    pump-hold delay of an actuation elapses between the successful
    [prefs.begin] and the [prefs.end]. *)
Lemma store_open_during_pump_hold_counterexample :
  let w := power_up ∅ true true in
  runPump 1000 w = Ok tt (after (runPump 1000) w)
  /\ trace (after (runPump 1000) w)
     = [ EvPrefsBegin ns false true;
         EvLedcWrite pumpPin dutyCycle;
         EvPrintln (Text "Pump on");
         EvDelay 1000;
         EvLedcWrite pumpPin 0;
         EvPrintln (Text "Pump off");
         EvNvsWrite pumpKey 1;
         EvPrefsEnd true ]
  /\ sleeps_while_open false (trace (after (runPump 1000) w)) = [EvDelay 1000].
Proof. vm_compute. repeat split; reflexivity. Qed.

(** * Further properties of the sketch *)

(** ** The filter: what it costs and where its result lies *)

Lemma total_delay_ms_app l1 l2 :
  total_delay_ms (l1 ++ l2) = total_delay_ms l1 + total_delay_ms l2.
Proof.
  induction l1 as [|e l1 IH]; [reflexivity|].
  destruct e; cbn [app total_delay_ms]; rewrite ?IH; lia.
Qed.

Lemma total_delay_us_app l1 l2 :
  total_delay_us (l1 ++ l2) = total_delay_us l1 + total_delay_us l2.
Proof.
  induction l1 as [|e l1 IH]; [reflexivity|].
  destruct e; cbn [app total_delay_us]; rewrite ?IH; lia.
Qed.

Lemma sample_events_cost touch pin d n : forall start,
  total_delay_us (sample_events touch pin d start n) = Z.of_nat n * d
  /\ total_delay_ms (sample_events touch pin d start n) = 0
  /\ count_ev is_touch_read (sample_events touch pin d start n) = n
  /\ length (sample_events touch pin d start n) = (2 * n)%nat.
Proof.
  unfold sample_events, count_ev.
  induction n as [|n IH]; intros start.
  - cbn. repeat split; lia.
  - cbn [seq flat_map app total_delay_us total_delay_ms List.filter is_touch_read length].
    destruct (IH (S start)) as (H1 & H2 & H3 & H4). rewrite H1, H2, H3, H4.
    repeat split; lia.
Qed.

(** X1. A call of [getSmoothedTouch] with 1 <= samples <= 65535 takes
    exactly [samples] raw samples, sleeps samples * delayMicros
    microseconds and no millisecond, and changes nothing else: no global
    of the sketch, nothing of the [Preferences] object or of the flash. *)
Theorem getSmoothedTouch_cost
    (touch : nat -> Z) (pin samples d : Z) (w : world) :
  1 <= samples <= UINT16_MAX ->
  exists v evs,
    getSmoothedTouch touch pin samples d w
    = Ok v (set_touch_reads (touch_reads w + Z.to_nat samples) (add_events evs w))
    /\ total_delay_us evs = samples * d
    /\ total_delay_ms evs = 0
    /\ count_ev is_touch_read evs = Z.to_nat samples
    /\ length evs = (2 * Z.to_nat samples)%nat.
Proof.
  intros Hs. rewrite getSmoothedTouch_spec by exact Hs.
  destruct (sample_events_cost touch pin d (Z.to_nat samples) (touch_reads w))
    as (Hus & Hms & Hcnt & Hlen).
  exists (truncated_mean (raw_samples touch (touch_reads w) (Z.to_nat samples))).
  exists (sample_events touch pin d (touch_reads w) (Z.to_nat samples)).
  split; [destruct w; reflexivity|].
  split; [rewrite Hus; lia|]. split; [exact Hms|]. split; [exact Hcnt|].
  exact Hlen.
Qed.

Lemma getSmoothedTouch_cost_witness :
  exists v evs,
    getSmoothedTouch scenario_touch 4 64 50 (power_up ∅ true true)
    = Ok v (set_touch_reads (0 + Z.to_nat 64)
              (add_events evs (power_up ∅ true true)))
    /\ total_delay_us evs = 64 * 50
    /\ total_delay_ms evs = 0
    /\ count_ev is_touch_read evs = Z.to_nat 64
    /\ length evs = (2 * Z.to_nat 64)%nat.
Proof.
  apply (getSmoothedTouch_cost scenario_touch 4 64 50 (power_up ∅ true true)).
  vm_compute. split; discriminate.
Defined.

Lemma sum_list_between lo hi l :
  Forall (fun v => lo <= v <= hi) l ->
  lo * Z.of_nat (length l) <= sum_list l <= hi * Z.of_nat (length l).
Proof.
  induction 1 as [|v l Hv _ IH]; cbn [sum_list fold_right length].
  - lia.
  - fold (sum_list l). lia.
Qed.

(** X2. The result of [getSmoothedTouch] lies between the smallest and the
    largest of the samples it read: if every one of them is in [lo, hi],
    so is the result. *)
Theorem getSmoothedTouch_between
    (touch : nat -> Z) (pin samples d lo hi : Z) (w : world) :
  1 <= samples <= UINT16_MAX ->
  Forall (fun v => lo <= v <= hi)
         (raw_samples touch (touch_reads w) (Z.to_nat samples)) ->
  exists v w',
    getSmoothedTouch touch pin samples d w = Ok v w' /\ lo <= v <= hi.
Proof.
  intros Hs Hall. rewrite getSmoothedTouch_spec by exact Hs.
  eexists. eexists. split; [reflexivity|].
  set (l := raw_samples touch (touch_reads w) (Z.to_nat samples)) in *.
  assert (Hlen : length l = Z.to_nat samples) by apply raw_samples_length.
  assert (Hne : l <> []) by (intros E; rewrite E in Hlen; cbn in Hlen; lia).
  destruct (truncated_mean_div l (raw_samples_bounds _ _ _) Hne) as [Hdiv _].
  pose proof (sum_list_between lo hi l Hall) as Hsum.
  rewrite Hdiv. rewrite Hlen, Z2Nat.id in * by lia.
  split.
  - apply Z.div_le_lower_bound; lia.
  - apply Z.div_le_upper_bound; lia.
Qed.

Lemma getSmoothedTouch_between_witness :
  exists v w',
    getSmoothedTouch scenario_touch 4 128 50 (power_up ∅ true true) = Ok v w'
    /\ 10 <= v <= 50.
Proof.
  apply (getSmoothedTouch_between scenario_touch 4 128 50 10 50
           (power_up ∅ true true)).
  - vm_compute. split; discriminate.
  - apply List.Forall_forall. intros v Hv.
    unfold raw_samples in Hv. apply List.in_map_iff in Hv.
    destruct Hv as (k & <- & _). unfold raw, scenario_touch.
    destruct (k <? 64)%nat; vm_compute; split; discriminate.
Defined.

(** ** [blinkLED] *)

Lemma blink_events_cost times onTime offTime :
  total_delay_ms (blink_events times onTime offTime)
  = Z.of_nat times * (onTime + offTime)
  /\ count_ev is_led_write (blink_events times onTime offTime) = (2 * times)%nat
  /\ length (blink_events times onTime offTime) = (4 * times)%nat
  /\ nvs_writes (blink_events times onTime offTime) = []
  /\ actuations (blink_events times onTime offTime) = 0%nat
  /\ begin_calls (blink_events times onTime offTime) = 0%nat.
Proof.
  unfold actuations, begin_calls, count_ev.
  induction times as [|times IH].
  - cbn. repeat split; lia.
  - destruct IH as (H1 & H2 & H3 & H4 & H5 & H6).
    cbn [blink_events app total_delay_ms List.filter is_led_write is_pump_on
         is_prefs_begin length nvs_writes].
    change (LED_BUILTIN =? LED_BUILTIN) with true. cbn [length].
    rewrite H1, H2, H3, H4, H5, H6. repeat split; lia.
Qed.

(** X3. For delays that are not negative, the delays that
    [blinkLED(times, onTime, offTime)] asks for add up to exactly
    times * (onTime + offTime) milliseconds (none when times <= 0), it
    writes the LED 2 * times times, and does nothing else: it leaves the
    sketch's globals, the [Preferences] object and the flash as they
    were, never drives the pump and never opens the namespace.  The
    [int] number of rounds is the [nat] [Z.to_nat times]: the [for] loop
    of line 49 runs no round when times <= 0. *)
Theorem blinkLED_cost (times onTime offTime : Z) (w : world) :
  0 <= onTime -> 0 <= offTime ->
  exists evs,
    blinkLED (Z.to_nat times) onTime offTime w = Ok tt (add_events evs w)
    /\ total_delay_ms evs = Z.max 0 times * (onTime + offTime)
    /\ 0 <= total_delay_ms evs
    /\ count_ev is_led_write evs = (2 * Z.to_nat times)%nat
    /\ length evs = (4 * Z.to_nat times)%nat
    /\ nvs_writes evs = []
    /\ actuations evs = 0%nat
    /\ begin_calls evs = 0%nat.
Proof.
  intros Hon Hoff.
  exists (blink_events (Z.to_nat times) onTime offTime).
  split; [apply blinkLED_spec|].
  destruct (blink_events_cost (Z.to_nat times) onTime offTime)
    as (H1 & H2 & H3 & H4 & H5 & H6).
  replace (Z.of_nat (Z.to_nat times)) with (Z.max 0 times) in H1 by lia.
  split; [exact H1|]. split; [rewrite H1; nia|].
  repeat split; assumption.
Qed.

Lemma blinkLED_cost_witness :
  exists evs,
    blinkLED (Z.to_nat 5) 200 200 (power_up ∅ true true)
    = Ok tt (add_events evs (power_up ∅ true true))
    /\ total_delay_ms evs = Z.max 0 5 * (200 + 200)
    /\ 0 <= total_delay_ms evs
    /\ count_ev is_led_write evs = (2 * Z.to_nat 5)%nat
    /\ length evs = (4 * Z.to_nat 5)%nat
    /\ nvs_writes evs = []
    /\ actuations evs = 0%nat
    /\ begin_calls evs = 0%nat.
Proof.
  apply (blinkLED_cost 5 200 200 (power_up ∅ true true)); lia.
Defined.

(** ** The overflow protection over a whole run *)

Section Protection.

Variable T0 : Z.
Variable touch : nat -> Z.

(** What one iteration does to the counter and to the number of
    actuations: it pumps once and counts once, from a counter of at most
    5, or it does not pump and keeps or resets the counter. *)
Lemma loop_pumps_or_rests w :
  let w' := after (loop T0 touch) w in
  (actuations (trace w') = S (actuations (trace w))
   /\ overflow_protect w <= 5
   /\ overflow_protect w' = overflow_protect w + 1)
  \/ (actuations (trace w') = actuations (trace w)
      /\ (overflow_protect w' = overflow_protect w \/ overflow_protect w' = 0)).
Proof.
  cbv zeta.
  destruct (loop_step T0 touch w)
    as (w' & Hrun & _ & _ & _ & _ & _ & _ & Hidle & Hcool & Hpump).
  unfold after. rewrite Hrun.
  destruct (Z_le_gt_dec (smoothed_at touch (touch_reads w)) (fullCapacitiveValue w))
    as [Hle|Hgt].
  - right. destruct (Hidle Hle) as (H1 & H2 & _). auto.
  - destruct (Z_le_gt_dec (overflow_protect w) 5) as [Ho|Ho].
    + left. destruct (Hpump ltac:(lia) Ho) as (H1 & H2 & _). auto.
    + right. destruct (Hcool ltac:(lia) ltac:(lia)) as (H1 & H2 & _). auto.
Qed.

Lemma iterations_add n k w :
  iterations T0 touch (k + n) w = iterations T0 touch k (iterations T0 touch n w).
Proof. unfold iterations. apply Nat.iter_add. Qed.

(** X4. The overflow counter never leaves the range 0..6: started within
    it (it starts at 0), it is within it after any number of iterations of
    [loop], whatever the sensor reads. *)
Theorem overflow_protect_bounded (n : nat) (w : world) :
  0 <= overflow_protect w <= 6 ->
  0 <= overflow_protect (iterations T0 touch n w) <= 6.
Proof.
  intros H0. induction n as [|n IH]; [exact H0|].
  rewrite iterations_S.
  pose proof (loop_pumps_or_rests (iterations T0 touch n w)) as Hstep.
  cbv zeta in Hstep. lia.
Qed.

(** If each of [k] iterations in a row pumps, the counter has grown by
    [k] and is still at most 6. *)
Lemma pumping_streak k : forall w,
  overflow_protect w <= 6 ->
  (actuations (trace (iterations T0 touch k w))
   <= actuations (trace w) + k)%nat
  /\ (actuations (trace (iterations T0 touch k w))
      = (actuations (trace w) + k)%nat ->
      overflow_protect (iterations T0 touch k w)
      = overflow_protect w + Z.of_nat k
      /\ overflow_protect w + Z.of_nat k <= 6).
Proof.
  induction k as [|k IH]; intros w H0.
  - change (iterations T0 touch 0 w) with w. split; [lia|]. intros _. lia.
  - destruct (IH w H0) as [Hle Hall]. rewrite iterations_S.
    pose proof (loop_pumps_or_rests (iterations T0 touch k w)) as Hstep.
    cbv zeta in Hstep.
    destruct Hstep as [(Ha & Ho & Ho') | (Ha & _)].
    + split; [lia|]. intros E.
      destruct (Hall ltac:(lia)) as [E1 E2]. lia.
    + split; [lia|]. intros E. lia.
Qed.

(** X5. Among any seven consecutive iterations of [loop] at most six
    actuate the pump, whatever the sensor reads and whatever the flash
    does. *)
Theorem at_most_six_actuations_in_seven (n : nat) (w : world) :
  0 <= overflow_protect w <= 6 ->
  (actuations (trace (iterations T0 touch (7 + n) w))
   <= actuations (trace (iterations T0 touch n w)) + 6)%nat.
Proof.
  intros H0. rewrite iterations_add.
  assert (Hn : 0 <= overflow_protect (iterations T0 touch n w) <= 6).
  { clear -H0. induction n as [|n IH]; [exact H0|].
    rewrite iterations_S.
    pose proof (loop_pumps_or_rests (iterations T0 touch n w)) as Hstep.
    cbv zeta in Hstep. lia. }
  destruct (pumping_streak 7 (iterations T0 touch n w) ltac:(lia)) as [Hle Hall].
  destruct (Nat.eq_dec
              (actuations (trace (iterations T0 touch 7 (iterations T0 touch n w))))
              (actuations (trace (iterations T0 touch n w)) + 7)%nat) as [E|NE].
  - destruct (Hall E) as [_ Hbad]. lia.
  - lia.
Qed.

End Protection.

Lemma overflow_protect_bounded_witness :
  0 <= overflow_protect (iterations 4 (steady_touch 50) 20 (power_up ∅ true true))
  <= 6.
Proof.
  apply (overflow_protect_bounded 4 (steady_touch 50) 20 (power_up ∅ true true)).
  vm_compute. split; discriminate.
Defined.

Lemma at_most_six_actuations_in_seven_witness :
  (actuations (trace (iterations 4 (steady_touch 50) (7 + 3) (power_up ∅ true true)))
   <= actuations (trace (iterations 4 (steady_touch 50) 3 (power_up ∅ true true)))
      + 6)%nat.
Proof.
  apply (at_most_six_actuations_in_seven 4 (steady_touch 50) 3
           (power_up ∅ true true)).
  vm_compute. split; discriminate.
Defined.

(** ** When the pump is driven, and how long an iteration takes *)

Lemma pump_on_after_app l1 : forall on l2,
  pump_on_after on (l1 ++ l2) = pump_on_after (pump_on_after on l1) l2.
Proof.
  induction l1 as [|e l1 IH]; intros on l2; [reflexivity|].
  destruct e; cbn [app pump_on_after]; try apply IH.
  destruct (pin =? pumpPin); apply IH.
Qed.

Lemma sleeps_while_pump_on_app l1 : forall on l2,
  sleeps_while_pump_on on (l1 ++ l2)
  = sleeps_while_pump_on on l1 ++ sleeps_while_pump_on (pump_on_after on l1) l2.
Proof.
  induction l1 as [|e l1 IH]; intros on l2; [reflexivity|].
  destruct e; cbn [app sleeps_while_pump_on pump_on_after]; try apply IH.
  - destruct on; cbn [app]; rewrite IH; reflexivity.
  - destruct on; cbn [app]; rewrite IH; reflexivity.
  - destruct (pin =? pumpPin); apply IH.
Qed.

Lemma pump_sample_events on touch pin d start n :
  pump_on_after on (sample_events touch pin d start n) = on
  /\ sleeps_while_pump_on false (sample_events touch pin d start n) = [].
Proof.
  unfold sample_events. revert start.
  induction n as [|n IH]; intros start;
    cbn [seq flat_map app pump_on_after sleeps_while_pump_on];
    [split; reflexivity | apply IH].
Qed.

Lemma pump_stats_events on v w :
  pump_on_after on (stats_events v w) = on
  /\ sleeps_while_pump_on on (stats_events v w) = []
  /\ total_delay_ms (stats_events v w) = 0
  /\ total_delay_us (stats_events v w) = 0.
Proof. repeat split; reflexivity. Qed.

(** The events of one actuation: whatever the state of the [Preferences]
    object and of the flash, the pump is driven for the one sleep of
    [durationMs] and is stopped at the end. *)
Lemma runPump_events d w :
  exists w' evs,
    runPump d w = Ok tt w'
    /\ trace w' = trace w ++ evs
    /\ (forall on, pump_on_after on evs = false
                   /\ sleeps_while_pump_on on evs = [EvDelay d])
    /\ total_delay_ms evs = d
    /\ total_delay_us evs = 0.
Proof.
  destruct w as [o e f pu pc st ro m ok lk tr br t].
  unfold runPump. run_sketch.
  destruct st; [destruct ro | destruct ok]; cbn;
    (eexists; eexists; split; [reflexivity|]; cbn;
     split; [rewrite <- ?app_assoc; cbn [app]; reflexivity|]).
  all: split; [intros on; destruct on; split; reflexivity|].
  all: cbn; split; [lia | reflexivity].
Qed.

Section Timing.

Variable T0 : Z.
Variable touch : nat -> Z.

(** The events of one iteration: the samples, the statistics block, what
    the decision adds, and the closing pause. *)
Lemma loop_events w :
  let v := smoothed_at touch (touch_reads w) in
  exists mid,
    trace (after (loop T0 touch) w)
    = trace w
      ++ sample_events touch T0 50 (touch_reads w) 64
      ++ stats_events v w ++ mid ++ [EvDelay 2000]
    /\ ((v <= fullCapacitiveValue w /\ mid = [])
        \/ (fullCapacitiveValue w < v /\ 5 < overflow_protect w
            /\ mid = [EvPrintln (Text "Overflow protect"); EvDelay 30000])
        \/ (fullCapacitiveValue w < v /\ overflow_protect w <= 5
            /\ (forall on, pump_on_after on mid = false
                           /\ sleeps_while_pump_on on mid = [EvDelay 1000])
            /\ total_delay_ms mid = 1000
            /\ total_delay_us mid = 0)).
Proof.
  cbv zeta. unfold after at 1. rewrite loop_reads.
  set (v := smoothed_at touch (touch_reads w)).
  set (ws := after_sampling touch T0 50 64 w).
  destruct (Z_le_gt_dec v (fullCapacitiveValue w)) as [Hle|Hgt].
  - rewrite loop_after_reading_idle by exact Hle.
    exists []. split; [|left; split; [exact Hle | reflexivity]].
    cbn. rewrite <- !app_assoc. reflexivity.
  - destruct (Z_le_gt_dec (overflow_protect w) 5) as [Ho|Ho].
    + rewrite loop_after_reading_pump by (cbn; lia).
      destruct (runPump_events 1000 (add_events (stats_events v ws) ws))
        as (w1 & mid & Hrun & Htr & Hpump & Hms & Hus).
      unfold after. rewrite Hrun. exists mid.
      split; [|right; right; repeat split; try lia; try apply Hpump; assumption].
      cbn [add_events set_overflow_protect trace]. rewrite Htr.
      cbn [add_events trace ws after_sampling]. rewrite <- !app_assoc. reflexivity.
    + rewrite loop_after_reading_cooldown by (cbn; lia).
      exists [EvPrintln (Text "Overflow protect"); EvDelay 30000].
      split; [|right; left; repeat split; lia].
      cbn. rewrite <- !app_assoc. reflexivity.
Qed.

(** X6. The pump is driven only during the pump-hold delay.  Whatever the
    state it starts in, [runPump(d)] with a duration d that is not
    negative drives the pump for its one sleep of d milliseconds and stops
    it before it returns; an iteration of [loop]
    that starts with the pump stopped drives it for the 1000 ms of its
    actuation if it actuates and not at all otherwise, and ends with the
    pump stopped; so the pump is stopped after every iteration of a run
    that starts with it stopped. *)
Theorem pump_driven_only_during_hold :
  (forall d w on,
      0 <= d ->
      exists w' evs,
        runPump d w = Ok tt w'
        /\ trace w' = trace w ++ evs
        /\ pump_on_after on evs = false
        /\ sleeps_while_pump_on on evs = [EvDelay d])
  /\ (forall w,
      exists evs,
        trace (after (loop T0 touch) w) = trace w ++ evs
        /\ pump_on_after false evs = false
        /\ sleeps_while_pump_on false evs
           = if (fullCapacitiveValue w <? smoothed_at touch (touch_reads w))
                && (overflow_protect w <=? 5)
             then [EvDelay 1000] else [])
  /\ (forall n w,
      pump_on_after false (trace w) = false ->
      pump_on_after false (trace (iterations T0 touch n w)) = false).
Proof.
  assert (Hloop : forall w,
      exists evs,
        trace (after (loop T0 touch) w) = trace w ++ evs
        /\ pump_on_after false evs = false
        /\ sleeps_while_pump_on false evs
           = if (fullCapacitiveValue w <? smoothed_at touch (touch_reads w))
                && (overflow_protect w <=? 5)
             then [EvDelay 1000] else []).
  { intros w. destruct (loop_events w) as (mid & Htr & Hcase).
    eexists. split; [exact Htr|].
    destruct (pump_sample_events false touch T0 50 (touch_reads w) 64) as [Hs1 Hs2].
    rewrite !pump_on_after_app, !sleeps_while_pump_on_app, ?pump_on_after_app.
    rewrite Hs1, Hs2.
    destruct (pump_stats_events false (smoothed_at touch (touch_reads w)) w)
      as (Hp1 & Hp2 & _).
    rewrite Hp1, Hp2.
    destruct Hcase as [(Hle & ->) | [(Hgt & Ho & ->) | (Hgt & Ho & Hmid & _)]].
    - destruct (Z.ltb_spec (fullCapacitiveValue w)
                  (smoothed_at touch (touch_reads w))); [lia|].
      split; reflexivity.
    - destruct (Z.ltb_spec (fullCapacitiveValue w)
                  (smoothed_at touch (touch_reads w))); [|lia].
      destruct (Z.leb_spec (overflow_protect w) 5); [lia|].
      split; reflexivity.
    - destruct (Z.ltb_spec (fullCapacitiveValue w)
                  (smoothed_at touch (touch_reads w))); [|lia].
      destruct (Z.leb_spec (overflow_protect w) 5); [|lia].
      destruct (Hmid false) as [H1 H2]. rewrite H1, H2.
      split; reflexivity. }
  split; [|split; [exact Hloop|]].
  - intros d w on _.
    destruct (runPump_events d w) as (w' & evs & Hrun & Htr & Hpump & _).
    exists w', evs. destruct (Hpump on). auto.
  - intros n w Hoff. induction n as [|n IH]; [exact Hoff|].
    rewrite iterations_S.
    destruct (Hloop (iterations T0 touch n w)) as (evs & Htr & Hp & _).
    rewrite Htr, pump_on_after_app, IH. exact Hp.
Qed.

(** X7. An iteration of [loop] sleeps 64 * 50 microseconds while it
    samples and, in milliseconds, the closing 2000 plus 1000 if it
    actuates the pump or 30000 if it cools down. *)
Theorem loop_iteration_time (w : world) :
  exists evs,
    trace (after (loop T0 touch) w) = trace w ++ evs
    /\ total_delay_us evs = 3200
    /\ total_delay_ms evs
       = 2000
         + (if fullCapacitiveValue w <? smoothed_at touch (touch_reads w)
            then if overflow_protect w <=? 5 then 1000 else 30000
            else 0).
Proof.
  destruct (loop_events w) as (mid & Htr & Hcase).
  eexists. split; [exact Htr|].
  destruct (sample_events_cost touch T0 50 64 (touch_reads w))
    as (Hus & Hms & _).
  rewrite !total_delay_us_app, !total_delay_ms_app, Hus, Hms.
  destruct (pump_stats_events false (smoothed_at touch (touch_reads w)) w)
    as (_ & _ & Hp3 & Hp4).
  rewrite Hp3, Hp4.
  destruct Hcase as [(Hle & ->) | [(Hgt & Ho & ->) | (Hgt & Ho & _ & Hm1 & Hm2)]].
  - destruct (Z.ltb_spec (fullCapacitiveValue w)
                (smoothed_at touch (touch_reads w))); [lia|].
    split; reflexivity.
  - destruct (Z.ltb_spec (fullCapacitiveValue w)
                (smoothed_at touch (touch_reads w))); [|lia].
    destruct (Z.leb_spec (overflow_protect w) 5); [lia|].
    split; reflexivity.
  - destruct (Z.ltb_spec (fullCapacitiveValue w)
                (smoothed_at touch (touch_reads w))); [|lia].
    destruct (Z.leb_spec (overflow_protect w) 5); [|lia].
    rewrite Hm1, Hm2. split; reflexivity.
Qed.

End Timing.

Lemma pump_driven_only_during_hold_witness :
  (exists w' evs,
      runPump 1000 (power_up ∅ true true) = Ok tt w'
      /\ trace w' = trace (power_up ∅ true true) ++ evs
      /\ pump_on_after false evs = false
      /\ sleeps_while_pump_on false evs = [EvDelay 1000])
  /\ pump_on_after false
       (trace (iterations 4 (steady_touch 50) 9 (power_up ∅ true true))) = false.
Proof.
  split.
  - apply (proj1 (pump_driven_only_during_hold 4 (steady_touch 50))). lia.
  - apply (proj2 (proj2 (pump_driven_only_during_hold 4 (steady_touch 50)))).
    reflexivity.
Defined.

(** ** Flash and memory over a session *)

Lemma to_u16_idem z : to_u16 (to_u16 z) = to_u16 z.
Proof. apply to_u16_small. apply to_u16_range. Qed.

Section Session.

Variable T0 : Z.
Variable touch : nat -> Z.

Lemma loop_keeps_flash_consistent w :
  flash_consistent w -> flash_consistent (after (loop T0 touch) w).
Proof.
  intros (Hs & Hok & Hcnt & V & HV & Hfull).
  pose proof (loop_pump_persists T0 touch w Hs Hok) as Hpers.
  destruct (loop_step T0 touch w)
    as (w' & Hrun & _ & _ & Hf' & Hc' & Hok' & Hs' & Hidle & Hcool & Hpump).
  assert (Ha : after (loop T0 touch) w = w')
    by (unfold after; rewrite Hrun; reflexivity).
  rewrite Ha in Hpers. rewrite Ha. clear Ha Hrun.
  split; [exact (Hs' Hs)|]. split; [congruence|].
  split; [|exists V; split; congruence].
  destruct (Z_le_gt_dec (smoothed_at touch (touch_reads w)) (fullCapacitiveValue w))
    as [Hle|Hgt].
  - destruct (Hidle Hle) as (_ & _ & _ & _ & _ & Hpc & Hnvs). congruence.
  - destruct (Z_le_gt_dec (overflow_protect w) 5) as [Ho|Ho].
    + rewrite (Hpers ltac:(lia) Ho). reflexivity.
    + destruct (Hcool ltac:(lia) ltac:(lia)) as (_ & _ & _ & _ & _ & Hpc & Hnvs).
      congruence.
Qed.

Lemma iterations_keep_flash_consistent n w :
  flash_consistent w -> flash_consistent (iterations T0 touch n w).
Proof.
  intros H. induction n as [|n IH]; [exact H|].
  rewrite iterations_S. apply loop_keeps_flash_consistent. exact IH.
Qed.

End Session.

Lemma setup_flash_consistent
    (T0 : Z) (touch : nat -> Z) (button : nat -> bool) (fuel : nat)
    (m : gmap string Z) (lk : bool) (w' : world) :
  setup T0 touch button fuel (power_up m true lk) = Ok tt w' ->
  flash_consistent w'.
Proof.
  intros Hrun. destruct (button 0%nat) eqn:Hb.
  - destruct (setup_calibrating T0 touch button fuel m true lk w' Hb Hrun)
      as (w1 & w2 & Hboot & Hcal & ->).
    destruct Hboot as (Hs1 & Hok1 & _).
    destruct (calibration_spec T0 touch button fuel _ w1 w2 Hs1 Hcal)
      as (Hfull & Hpc & Hs2 & Hok2 & _ & Hyes & _).
    destruct (Hyes Hok1) as (Hcap & Hpump & _).
    unfold flash_consistent. cbn [add_events prefs_started nvs_ok nvs
      totalPumpsSinceCalibration fullCapacitiveValue].
    split; [exact Hs2|]. split; [congruence|].
    split; [rewrite Hpump, Hpc; reflexivity|].
    eexists. split; [exact Hcap|]. rewrite Hfull, to_u16_idem. reflexivity.
  - destruct (setup_plain T0 touch button fuel m true lk Hb)
      as (w1 & Hrun' & Hboot).
    rewrite Hrun' in Hrun. injection Hrun as <-.
    destruct Hboot as (Hs1 & Hok1 & _ & _ & _ & _ & Hpc & Hfull & Hnvs & _).
    cbn [andb] in Hnvs.
    unfold flash_consistent. cbn [add_events prefs_started nvs_ok nvs
      totalPumpsSinceCalibration fullCapacitiveValue].
    split; [exact Hs1|]. split; [exact Hok1|].
    destruct (m !! capKey) as [V|] eqn:HV.
    + change (default 0 (Some V)) with V in *.
      destruct (Z.eqb_spec V 0) as [->|HV0].
      * rewrite Hnvs, Hfull, Hpc.
        split; [rewrite lookup_insert_ne by (symmetry; exact keys_distinct);
                reflexivity|].
        exists 45. split; [apply lookup_insert_eq | reflexivity].
      * rewrite Hnvs, Hfull, Hpc. split; [reflexivity|].
        exists V. split; [exact HV | reflexivity].
    + change (default 0 None) with 0 in *. cbn [Z.eqb] in *.
      rewrite Hnvs, Hfull, Hpc.
      split; [rewrite lookup_insert_ne by (symmetry; exact keys_distinct);
              reflexivity|].
      exists 45. split; [apply lookup_insert_eq | reflexivity].
Qed.

(** X8. On a board whose flash opens, flash and memory agree at the end
    of [setup] (with or without calibration) and after every iteration of
    [loop] that follows: the namespace is closed, the stored pump counter
    (0 when the entry is absent) equals the counter in memory, and the
    threshold in use is the stored threshold (reduced to 16 bits). *)
Theorem session_flash_consistent
    (T0 : Z) (touch : nat -> Z) (button : nat -> bool) (fuel : nat)
    (m : gmap string Z) (lk : bool) (w' : world) (n : nat) :
  setup T0 touch button fuel (power_up m true lk) = Ok tt w' ->
  flash_consistent (iterations T0 touch n w').
Proof.
  intros Hrun. apply iterations_keep_flash_consistent.
  exact (setup_flash_consistent T0 touch button fuel m lk w' Hrun).
Qed.

Lemma session_flash_consistent_witness :
  flash_consistent
    (iterations 4 (steady_touch 50) 9
       (after (setup 4 (steady_touch 50) calibration_button 3)
              (power_up {[ pumpKey := 7 ]} true true))).
Proof.
  apply (session_flash_consistent 4 (steady_touch 50) calibration_button 3
           {[ pumpKey := 7 ]} true).
  vm_compute. reflexivity.
Defined.

(** X9. Power cycle.  From a state in which flash and memory agree, a
    reboot without calibration reloads the pump counter that was in
    memory; if the threshold in use was not 0 it reloads that threshold
    too and writes nothing to flash; a stored threshold of 0 is taken for
    unset and replaced, in use and in flash, by the default 45. *)
Theorem reboot_reloads
    (T0 : Z) (touch : nat -> Z) (button : nat -> bool) (fuel : nat)
    (lk : bool) (w : world) :
  flash_consistent w ->
  button 0%nat = false ->
  exists w',
    setup T0 touch button fuel (power_up (nvs w) true lk) = Ok tt w'
    /\ totalPumpsSinceCalibration w' = totalPumpsSinceCalibration w
    /\ (fullCapacitiveValue w <> 0 ->
        fullCapacitiveValue w' = fullCapacitiveValue w
        /\ nvs w' = nvs w
        /\ nvs_writes (trace w') = [])
    /\ (nvs w !! capKey = Some 0 ->
        fullCapacitiveValue w' = 45 /\ nvs w' !! capKey = Some 45).
Proof.
  intros (Hs & Hok & Hcnt & V & HV & Hfull) Hb.
  destruct (setup_plain T0 touch button fuel (nvs w) true lk Hb)
    as (w1 & Hrun & Hboot).
  destruct Hboot as (_ & _ & _ & _ & _ & _ & Hpc & Hfull1 & Hnvs1 & Hwr1 & _).
  cbn [andb] in Hnvs1, Hwr1. rewrite HV in Hfull1, Hnvs1, Hwr1.
  change (default 0 (Some V)) with V in *.
  exists (add_events finish_events w1). split; [exact Hrun|].
  cbn [add_events totalPumpsSinceCalibration fullCapacitiveValue nvs trace].
  split; [congruence|]. split.
  - intros Hne. destruct (Z.eqb_spec V 0) as [->|_].
    + exfalso. apply Hne. rewrite Hfull. reflexivity.
    + split; [congruence|]. split; [exact Hnvs1|].
      rewrite nvs_writes_app, Hwr1. reflexivity.
  - intros H0. assert (V = 0) as -> by congruence.
    cbn [Z.eqb] in Hfull1, Hnvs1. rewrite Hfull1, Hnvs1.
    split; [reflexivity | apply lookup_insert_eq].
Qed.

Lemma reboot_reloads_witness :
  exists w',
    setup 4 (steady_touch 10) button_released 0
      (power_up {[ capKey := 31; pumpKey := 3 ]} true true)
    = Ok tt w'
    /\ totalPumpsSinceCalibration w' = 3
    /\ fullCapacitiveValue w' = 31
    /\ nvs_writes (trace w') = [].
Proof.
  assert (Hc : flash_consistent
                 (World 2 0 31 5 3 false false
                    {[ capKey := 31; pumpKey := 3 ]} true true 128 1 [])).
  { split; [reflexivity|]. split; [reflexivity|]. split; [reflexivity|].
    exists 31. split; reflexivity. }
  destruct (reboot_reloads 4 (steady_touch 10) button_released 0 true _ Hc eq_refl)
    as (w' & Hrun & Hpc & Hthr & _).
  exists w'. split; [exact Hrun|]. split; [exact Hpc|].
  destruct Hthr as (Hfull & _ & Hwr); [discriminate|].
  split; [exact Hfull | exact Hwr].
Defined.

(** ** The two pump counters *)

Lemma to_u32_succ a : to_u32 (to_u32 a + 1) = to_u32 (a + 1).
Proof. unfold to_u32. rewrite Z.add_mod_idemp_l by lia. reflexivity. Qed.

Lemma to_u32_add a b : to_u32 (to_u32 a + b) = to_u32 (a + b).
Proof. unfold to_u32. rewrite Z.add_mod_idemp_l by lia. reflexivity. Qed.

Lemma counts_actuations_step w w' :
  counts_actuations w ->
  totalPumpsSincePowerUp w' = to_u32 (totalPumpsSincePowerUp w + 1) ->
  actuations (trace w') = S (actuations (trace w)) ->
  counts_actuations w'.
Proof.
  unfold counts_actuations. intros H Hpu Ha.
  rewrite Hpu, H, Ha, to_u32_succ. f_equal. lia.
Qed.

Lemma counts_actuations_keep w w' :
  counts_actuations w ->
  totalPumpsSincePowerUp w' = totalPumpsSincePowerUp w ->
  actuations (trace w') = actuations (trace w) ->
  counts_actuations w'.
Proof. unfold counts_actuations. intros H Hpu Ha. congruence. Qed.

Section Counters.

Variable T0 : Z.
Variable touch : nat -> Z.

(** One iteration either pumps once and adds one to both counters, or
    leaves both counters and the number of actuations as they are. *)
Lemma loop_advances w :
  let w' := after (loop T0 touch) w in
  (actuations (trace w') = S (actuations (trace w))
   /\ totalPumpsSincePowerUp w' = to_u32 (totalPumpsSincePowerUp w + 1)
   /\ totalPumpsSinceCalibration w' = to_u32 (totalPumpsSinceCalibration w + 1))
  \/ (actuations (trace w') = actuations (trace w)
      /\ totalPumpsSincePowerUp w' = totalPumpsSincePowerUp w
      /\ totalPumpsSinceCalibration w' = totalPumpsSinceCalibration w).
Proof.
  cbv zeta.
  destruct (loop_step T0 touch w)
    as (w' & Hrun & _ & _ & _ & _ & _ & _ & Hidle & Hcool & Hpump).
  unfold after. rewrite Hrun.
  destruct (Z_le_gt_dec (smoothed_at touch (touch_reads w)) (fullCapacitiveValue w))
    as [Hle|Hgt].
  - right. destruct (Hidle Hle) as (_ & H2 & _ & _ & H5 & H6 & _). auto.
  - destruct (Z_le_gt_dec (overflow_protect w) 5) as [Ho|Ho].
    + left. destruct (Hpump ltac:(lia) Ho) as (_ & H2 & _ & _ & H5 & H6). auto.
    + right.
      destruct (Hcool ltac:(lia) ltac:(lia)) as (_ & H2 & _ & _ & H5 & H6 & _).
      auto.
Qed.

Lemma iterations_keep_counts n w :
  counts_actuations w -> counts_actuations (iterations T0 touch n w).
Proof.
  intros H. induction n as [|n IH]; [exact H|].
  rewrite iterations_S.
  destruct (loop_advances (iterations T0 touch n w))
    as [(Ha & Hpu & _) | (Ha & Hpu & _)].
  - exact (counts_actuations_step _ _ IH Hpu Ha).
  - exact (counts_actuations_keep _ _ IH Hpu Ha).
Qed.

(** X10. Over any number of iterations of [loop] the two pump counters
    advance together, by the number of pump actuations of these
    iterations, modulo 2^32; that number is at most the number of
    iterations. *)
Theorem counters_advance_with_actuations (n : nat) (w : world) :
  0 <= totalPumpsSincePowerUp w <= UINT32_MAX ->
  0 <= totalPumpsSinceCalibration w <= UINT32_MAX ->
  exists d : nat,
    (d <= n)%nat
    /\ actuations (trace (iterations T0 touch n w))
       = (actuations (trace w) + d)%nat
    /\ totalPumpsSincePowerUp (iterations T0 touch n w)
       = to_u32 (totalPumpsSincePowerUp w + Z.of_nat d)
    /\ totalPumpsSinceCalibration (iterations T0 touch n w)
       = to_u32 (totalPumpsSinceCalibration w + Z.of_nat d).
Proof.
  intros Hpu Hpc. induction n as [|n IH].
  - exists 0%nat. change (iterations T0 touch 0 w) with w.
    rewrite !Z.add_0_r, !to_u32_small by assumption.
    split; [lia|]. split; [lia|]. split; reflexivity.
  - destruct IH as (d & Hd & Ha & Hu & Hc). rewrite iterations_S.
    destruct (loop_advances (iterations T0 touch n w))
      as [(Ha' & Hu' & Hc') | (Ha' & Hu' & Hc')].
    + exists (S d). split; [lia|]. split; [lia|].
      rewrite Hu', Hc', Hu, Hc, !to_u32_succ.
      split; f_equal; lia.
    + exists d. split; [lia|]. split; [lia|].
      rewrite Hu', Hc'. split; assumption.
Qed.

End Counters.

Lemma counters_advance_with_actuations_witness :
  exists d : nat,
    (d <= 3)%nat
    /\ actuations (trace (iterations 4 (steady_touch 50) 3 (power_up ∅ true true)))
       = (0 + d)%nat
    /\ totalPumpsSincePowerUp
         (iterations 4 (steady_touch 50) 3 (power_up ∅ true true))
       = to_u32 (0 + Z.of_nat d)
    /\ totalPumpsSinceCalibration
         (iterations 4 (steady_touch 50) 3 (power_up ∅ true true))
       = to_u32 (0 + Z.of_nat d).
Proof.
  apply (counters_advance_with_actuations 4 (steady_touch 50) 3
           (power_up ∅ true true)); vm_compute; split; discriminate.
Defined.

(** ** The counters through the calibration *)

Section CalibrationCounters.

Variable T0 : Z.
Variable touch : nat -> Z.
Variable button : nat -> bool.

Lemma calibration_enter_keeps w :
  exists w',
    calibration_enter T0 touch w = Ok tt w'
    /\ totalPumpsSincePowerUp w' = totalPumpsSincePowerUp w
    /\ overflow_protect w' = overflow_protect w
    /\ cooldowns (trace w') = cooldowns (trace w).
Proof.
  destruct w as [o e f pu pc st ro m ok lk tr br t].
  unfold calibration_enter, TOUCH_PIN. cbn.
  rewrite getSmoothedTouch_spec by (unfold UINT16_MAX; lia). cbn.
  eexists. split; [reflexivity|]. cbn.
  split; [reflexivity|]. split; [reflexivity|]. count_trace.
Qed.

Lemma calibration_commit_keeps p w :
  prefs_started w = false ->
  exists w',
    calibration_commit T0 touch p w = Ok tt w'
    /\ totalPumpsSincePowerUp w' = totalPumpsSincePowerUp w.
Proof.
  intros Hs. destruct w as [o e f pu pc st ro m ok lk tr br t]. cbn in Hs. subst st.
  unfold calibration_commit, TOUCH_PIN. cbn.
  rewrite getSmoothedTouch_spec by (unfold UINT16_MAX; lia).
  cbn. destruct ok; cbn; eexists; (split; [reflexivity|]); reflexivity.
Qed.

(** A round of the calibration loop counts its actuation, and neither
    cools down nor touches the overflow counter. *)
Lemma pump_round_counts w :
  totalPumpsSincePowerUp (pump_round T0 touch button w)
  = to_u32 (totalPumpsSincePowerUp w + 1)
  /\ overflow_protect (pump_round T0 touch button w) = overflow_protect w
  /\ cooldowns (trace (pump_round T0 touch button w)) = cooldowns (trace w).
Proof.
  unfold pump_round.
  destruct (runPump_frame 1000 (button_sampled button w))
    as (w1 & evs & Hrun & Htr & _ & _ & Hc & Hpu & _ & Hov & _).
  specialize (Hc ltac:(lia)).
  split; [|split].
  - unfold after. rewrite Hrun. cbn. rewrite Hpu. reflexivity.
  - unfold after. rewrite Hrun. cbn. rewrite Hov. reflexivity.
  - unfold after. rewrite Hrun. cbn. rewrite Htr. cbn. count_trace.
Qed.

Lemma calibration_pumping_counts fuel : forall w w',
  calibration_pumping T0 touch button fuel w = Ok tt w' ->
  counts_actuations w -> counts_actuations w'.
Proof.
  induction fuel as [|fuel IH]; intros w w' Hrun Hc; [discriminate|].
  destruct (button (button_reads w)) eqn:Hb.
  - rewrite calibration_pumping_high in Hrun by exact Hb.
    injection Hrun as <-.
    apply (counts_actuations_keep w); [exact Hc | reflexivity|].
    unfold button_sampled. cbn. count_trace.
  - rewrite calibration_pumping_low in Hrun by exact Hb.
    apply (IH _ _ Hrun).
    destruct (pump_round_frame T0 touch button w) as (_ & _ & _ & Ha & _).
    destruct (pump_round_counts w) as (Hpu & _).
    exact (counts_actuations_step _ _ Hc Hpu Ha).
Qed.

Lemma calibration_counts fuel p w w' :
  prefs_started w = false ->
  calibration T0 touch button fuel p w = Ok tt w' ->
  counts_actuations w -> counts_actuations w'.
Proof.
  intros Hs Hrun Hc. rewrite calibration_unfold in Hrun.
  apply bind_Ok in Hrun as ([] & w1 & He & Hrun).
  apply bind_Ok in Hrun as ([] & w2 & Hp & Hrun).
  destruct (calibration_enter_frame T0 touch w)
    as (w1' & He' & Hs1 & _ & _ & _ & _ & Ha1).
  destruct (calibration_enter_keeps w) as (w1'' & He'' & Hpu1 & _).
  assert (w1' = w1) by congruence. assert (w1'' = w1) by congruence.
  subst w1' w1''.
  pose proof (counts_actuations_keep _ _ Hc Hpu1 Ha1) as Hc1.
  pose proof (calibration_pumping_counts fuel w1 w2 Hp Hc1) as Hc2.
  destruct (calibration_pumping_frame T0 touch button fuel w1 w2 Hp
              ltac:(congruence)) as (Hs2 & _).
  destruct (calibration_commit_spec T0 touch p w2 Hs2)
    as (w3 & Hcm & _ & _ & _ & _ & _ & _ & _ & Ha3).
  destruct (calibration_commit_keeps p w2 Hs2) as (w3' & Hcm' & Hpu3).
  assert (w3 = w') by congruence. assert (w3' = w') by congruence.
  subst w3 w3'.
  exact (counts_actuations_keep _ _ Hc2 Hpu3 Ha3).
Qed.

Lemma setup_counts fuel (m : gmap string Z) (ok lk : bool) w' :
  setup T0 touch button fuel (power_up m ok lk) = Ok tt w' ->
  counts_actuations w'.
Proof.
  intros Hrun. destruct (button 0%nat) eqn:Hb.
  - destruct (setup_calibrating T0 touch button fuel m ok lk w' Hb Hrun)
      as (w1 & w2 & Hboot & Hcal & ->).
    destruct Hboot as (Hs1 & _ & _ & _ & _ & Hpu & _ & _ & _ & _ & _ & _ & Ha & _).
    assert (Hc1 : counts_actuations w1).
    { unfold counts_actuations. rewrite Hpu, Ha. reflexivity. }
    pose proof (calibration_counts fuel _ w1 w2 Hs1 Hcal Hc1) as Hc2.
    apply (counts_actuations_keep w2); [exact Hc2 | reflexivity|].
    cbn [add_events trace]. unfold finish_events. count_trace.
  - destruct (setup_plain T0 touch button fuel m ok lk Hb) as (w1 & Hrun' & Hboot).
    rewrite Hrun' in Hrun. injection Hrun as <-.
    destruct Hboot as (Hs1 & _ & _ & _ & _ & Hpu & _ & _ & _ & _ & _ & _ & Ha & _).
    assert (Hc1 : counts_actuations w1).
    { unfold counts_actuations. rewrite Hpu, Ha. reflexivity. }
    apply (counts_actuations_keep w1); [exact Hc1 | reflexivity|].
    cbn [add_events trace]. unfold finish_events. count_trace.
Qed.

End CalibrationCounters.

(** X11. The power-up counter counts the pump: at the end of [setup]
    and after every iteration of [loop] that follows it equals the number
    of pump actuations since power-up, those of the calibration included,
    modulo 2^32, whatever the flash does. *)
Theorem session_counts_actuations
    (T0 : Z) (touch : nat -> Z) (button : nat -> bool) (fuel : nat)
    (m : gmap string Z) (ok lk : bool) (w' : world) (n : nat) :
  setup T0 touch button fuel (power_up m ok lk) = Ok tt w' ->
  counts_actuations (iterations T0 touch n w').
Proof.
  intros Hrun. apply iterations_keep_counts.
  exact (setup_counts T0 touch button fuel m ok lk w' Hrun).
Qed.

Lemma session_counts_actuations_witness :
  counts_actuations
    (iterations 4 (steady_touch 50) 9
       (after (setup 4 (steady_touch 50) calibration_button 3)
              (power_up {[ pumpKey := 7 ]} false true))).
Proof.
  apply (session_counts_actuations 4 (steady_touch 50) calibration_button 3
           {[ pumpKey := 7 ]} false true).
  vm_compute. reflexivity.
Defined.

(** ** A calibration whose button stays LOW *)

Section Unbounded.

Variable T0 : Z.
Variable touch : nat -> Z.
Variable button : nat -> bool.

Lemma pump_rounds_frame k : forall w,
  button_reads (pump_rounds T0 touch button k w) = (button_reads w + k)%nat
  /\ actuations (trace (pump_rounds T0 touch button k w))
     = (actuations (trace w) + k)%nat
  /\ cooldowns (trace (pump_rounds T0 touch button k w)) = cooldowns (trace w)
  /\ overflow_protect (pump_rounds T0 touch button k w) = overflow_protect w.
Proof.
  induction k as [|k IH]; intros w.
  - cbn [pump_rounds]. repeat split; lia.
  - cbn [pump_rounds].
    destruct (IH (pump_round T0 touch button w)) as (Hb & Ha & Hc & Ho).
    destruct (pump_round_frame T0 touch button w) as (_ & _ & Hb1 & Ha1 & _).
    destruct (pump_round_counts T0 touch button w) as (_ & Ho1 & Hc1).
    rewrite Hb, Ha, Hc, Ho, Hb1, Ha1, Hc1, Ho1. repeat split; lia.
Qed.


Lemma calibration_pumping_diverges fuel : forall w,
  (forall j, button (button_reads w + j) = false) ->
  calibration_pumping T0 touch button fuel w = OutOfFuel.
Proof.
  induction fuel as [|fuel IH]; intros w Hlow; [reflexivity|].
  pose proof (Hlow 0%nat) as H0. rewrite Nat.add_0_r in H0.
  rewrite calibration_pumping_low by exact H0.
  apply IH. intros j.
  destruct (pump_round_frame T0 touch button w) as (_ & _ & Hb & _).
  rewrite Hb.
  replace (S (button_reads w) + j)%nat with (button_reads w + S j)%nat by lia.
  apply Hlow.
Qed.

(** X13. A calibration that is entered and whose button then stays LOW
    never ends: if the button reads HIGH at the test of [setup] and LOW
    at every later test, [setup] does not return, whatever the number of
    rounds allowed to its loop. *)
Theorem setup_never_returns_while_button_low
    (fuel : nat) (m : gmap string Z) (ok lk : bool) :
  button 0%nat = true ->
  (forall j, button (S j) = false) ->
  setup T0 touch button fuel (power_up m ok lk) = OutOfFuel.
Proof.
  intros Hb Hlow.
  destruct (setup_boot_calibrating T0 touch button fuel m ok lk Hb)
    as (w1 & Hsetup & Hboot).
  rewrite Hsetup. clear Hsetup.
  destruct Hboot as (_ & _ & _ & Hbr & _).
  unfold bind at 1. rewrite calibration_unfold. unfold bind at 1.
  destruct (calibration_enter_frame T0 touch w1)
    as (w2 & He & _ & _ & _ & Hbr2 & _).
  rewrite He. unfold bind at 1.
  rewrite calibration_pumping_diverges; [reflexivity|].
  intros j. rewrite Hbr2, Hbr. apply Hlow.
Qed.

End Unbounded.


Lemma setup_never_returns_while_button_low_witness :
  setup 4 (steady_touch 50) button_tapped 1000 (power_up ∅ true true)
  = OutOfFuel.
Proof.
  apply (setup_never_returns_while_button_low 4 (steady_touch 50) button_tapped
           1000 ∅ true true).
  - reflexivity.
  - intros j. reflexivity.
Defined.

(** ** The two ways through [setup] *)

(** X14. A boot with the button not pressed skips the calibration
    altogether: [setup] returns without entering its loop, tests the
    button once, never reads the sensor, never runs the pump and leaves
    both the overflow counter and the power-up counter at 0. *)
Theorem setup_without_button_skips_calibration
    (T0 : Z) (touch : nat -> Z) (button : nat -> bool) (fuel : nat)
    (m : gmap string Z) (ok lk : bool) :
  button 0%nat = false ->
  exists w',
    setup T0 touch button fuel (power_up m ok lk) = Ok tt w'
    /\ button_reads w' = 1%nat
    /\ touch_reads w' = 0%nat
    /\ actuations (trace w') = 0%nat
    /\ cooldowns (trace w') = 0%nat
    /\ overflow_protect w' = 0
    /\ totalPumpsSincePowerUp w' = 0.
Proof.
  intros Hb.
  destruct (setup_plain T0 touch button fuel m ok lk Hb) as (w1 & Hrun & Hboot).
  destruct Hboot
    as (_ & _ & Ht & Hbr & Ho & Hpu & _ & _ & _ & _ & _ & _ & Ha & Hc & _).
  exists (add_events finish_events w1). split; [exact Hrun|].
  cbn [add_events button_reads touch_reads overflow_protect
       totalPumpsSincePowerUp trace].
  split; [exact Hbr|]. split; [exact Ht|].
  split; [unfold finish_events; count_trace|].
  split; [unfold finish_events; count_trace|].
  split; assumption.
Qed.

Lemma setup_without_button_skips_calibration_witness :
  exists w',
    setup 4 (steady_touch 50) button_released 0 (power_up ∅ false false)
    = Ok tt w'
    /\ button_reads w' = 1%nat
    /\ touch_reads w' = 0%nat
    /\ actuations (trace w') = 0%nat
    /\ cooldowns (trace w') = 0%nat
    /\ overflow_protect w' = 0
    /\ totalPumpsSincePowerUp w' = 0.
Proof.
  apply (setup_without_button_skips_calibration 4 (steady_touch 50)
           button_released 0 ∅ false false).
  reflexivity.
Defined.

(** X15. A calibration pumps once for every LOW test of the button: if
    the button reads HIGH at the test of [setup], LOW at the next [k]
    tests and HIGH at the one after, [setup] returns after exactly [k]
    pump actuations; the power-up counter then holds [k] (modulo 2^32)
    and the counter since calibration holds 0, whatever the flash does. *)
Theorem setup_calibration_pump_count
    (T0 : Z) (touch : nat -> Z) (button : nat -> bool) (k : nat)
    (m : gmap string Z) (ok lk : bool) :
  button 0%nat = true ->
  (forall j, (j < k)%nat -> button (1 + j)%nat = false) ->
  button (1 + k)%nat = true ->
  exists w',
    setup T0 touch button (S k) (power_up m ok lk) = Ok tt w'
    /\ actuations (trace w') = k
    /\ totalPumpsSincePowerUp w' = to_u32 (Z.of_nat k)
    /\ totalPumpsSinceCalibration w' = 0.
Proof.
  intros Hb Hlow Hhigh.
  destruct (setup_calibration_completes T0 touch button k m ok lk Hb Hlow Hhigh)
    as (w' & Hrun & Ha).
  exists w'. split; [exact Hrun|]. split; [exact Ha|].
  pose proof (setup_counts T0 touch button (S k) m ok lk w' Hrun) as Hc.
  unfold counts_actuations in Hc. rewrite Ha in Hc.
  split; [exact Hc|].
  destruct (setup_calibrating T0 touch button (S k) m ok lk w' Hb Hrun)
    as (w1 & w2 & Hboot & Hcal & ->).
  destruct Hboot as (Hs1 & _).
  destruct (calibration_spec T0 touch button (S k) _ w1 w2 Hs1 Hcal)
    as (_ & Hpc & _).
  exact Hpc.
Qed.

Lemma setup_calibration_pump_count_witness :
  exists w',
    setup 4 (steady_touch 50) calibration_button 3 (power_up ∅ false true)
    = Ok tt w'
    /\ actuations (trace w') = 2%nat
    /\ totalPumpsSincePowerUp w' = to_u32 2
    /\ totalPumpsSinceCalibration w' = 0.
Proof.
  apply (setup_calibration_pump_count 4 (steady_touch 50) calibration_button 2
           ∅ false true).
  - reflexivity.
  - intros j Hj. destruct j as [|[|j]]; [reflexivity | reflexivity | lia].
  - reflexivity.
Defined.

(** ** What [loop] leaves alone *)

Section LoopFrame.

Variable T0 : Z.
Variable touch : nat -> Z.

(** X16. [loop] never tests the button, reads the sensor exactly 64
    times per iteration, and never changes the threshold, neither the
    one in use nor the stored one. *)
Theorem loop_keeps_threshold_and_button (n : nat) (w : world) :
  button_reads (iterations T0 touch n w) = button_reads w
  /\ touch_reads (iterations T0 touch n w) = (touch_reads w + 64 * n)%nat
  /\ fullCapacitiveValue (iterations T0 touch n w) = fullCapacitiveValue w
  /\ nvs (iterations T0 touch n w) !! capKey = nvs w !! capKey
  /\ nvs_ok (iterations T0 touch n w) = nvs_ok w.
Proof.
  induction n as [|n IH].
  - change (iterations T0 touch 0 w) with w. repeat split. lia.
  - destruct IH as (Hb & Ht & Hf & Hc & Hok). rewrite iterations_S.
    destruct (loop_step T0 touch (iterations T0 touch n w))
      as (w' & Hrun & Ht' & Hb' & Hf' & Hc' & Hok' & _).
    unfold after. rewrite Hrun.
    rewrite Hb', Ht', Hf', Hc', Hok', Hb, Ht, Hf, Hc, Hok.
    repeat split. lia.
Qed.

Lemma loop_after_reading_ignores_empty v e w :
  loop_after_reading v (set_emptyCapacitiveValue e w)
  = Ok tt (set_emptyCapacitiveValue e (after (loop_after_reading v) w)).
Proof.
  destruct w as [o e0 f pu pc st ro m ok lk tr br t].
  unfold after, loop_after_reading, runPump. run_sketch.
  rewrite Z.gtb_ltb. destruct (Z.ltb_spec f v); cbn; [|reflexivity].
  rewrite Z.gtb_ltb. destruct (Z.ltb_spec 5 o); cbn; [reflexivity|].
  destruct st; [destruct ro | destruct ok]; cbn; reflexivity.
Qed.

Lemma loop_after_reading_total v w :
  loop_after_reading v w = Ok tt (after (loop_after_reading v) w).
Proof.
  destruct (Z_le_gt_dec v (fullCapacitiveValue w)) as [Hle|Hgt].
  - unfold after. rewrite loop_after_reading_idle by exact Hle. reflexivity.
  - destruct (Z_le_gt_dec (overflow_protect w) 5) as [Ho|Ho].
    + unfold after at 1.
      rewrite loop_after_reading_pump by lia. reflexivity.
    + unfold after. rewrite loop_after_reading_cooldown by lia. reflexivity.
Qed.

Lemma loop_ignores_empty e w :
  after (loop T0 touch) (set_emptyCapacitiveValue e w)
  = set_emptyCapacitiveValue e (after (loop T0 touch) w).
Proof.
  unfold after. rewrite !loop_reads.
  replace (after_sampling touch T0 50 64 (set_emptyCapacitiveValue e w))
    with (set_emptyCapacitiveValue e (after_sampling touch T0 50 64 w))
    by (destruct w; reflexivity).
  replace (touch_reads (set_emptyCapacitiveValue e w)) with (touch_reads w)
    by (destruct w; reflexivity).
  rewrite loop_after_reading_ignores_empty.
  rewrite (loop_after_reading_total _ (after_sampling touch T0 50 64 w)).
  reflexivity.
Qed.

(** X17. The empty-feeder reading that a calibration records is used
    for nothing in [loop]: with another value in [emptyCapacitiveValue]
    any number of iterations does exactly the same (same pump decisions,
    output, counters and flash) and leaves that value as it is. *)
Theorem loop_ignores_emptyCapacitiveValue (n : nat) (e : Z) (w : world) :
  iterations T0 touch n (set_emptyCapacitiveValue e w)
  = set_emptyCapacitiveValue e (iterations T0 touch n w).
Proof.
  induction n as [|n IH]; [reflexivity|].
  rewrite !iterations_S, IH. apply loop_ignores_empty.
Qed.

End LoopFrame.
